(* ===================================================================== *)
(* zato: pub/sub topic services                                          *)
(*   code/zato-server/src/zato/server/service/internal/pubsub/topic.py   *)
(*                                                                       *)
(* A shallow embedding of the services Clear, GetInRAMMessageList and    *)
(* CollectNonGDDepth, and the properties of the specification that are   *)
(* stated about them.                                                    *)
(* ===================================================================== *)

From stdpp Require Import gmap strings list fin_maps pretty.
From Stdlib Require Import ZArith Lia.

Local Open Scope string_scope.
Local Open Scope Z_scope.

(* --------------------------------------------------------------------- *)
(* Exceptions and results                                                *)
(* --------------------------------------------------------------------- *)

(** The steps of the durable-store transaction of [Clear.handle] that can
    be made to fail. *)
Inductive store_op := OpDeleteMessages | OpDeleteEnqueued | OpCommit.

(** The exceptions the modelled code can raise.  [KeyError] and
    [TypeError] are Python's own, and a KeyError carries the key that was
    missing: [KeyError('server_data')] and [KeyError('pid_data')] are
    different exceptions.  [NoResultFound] and [MultipleResultsFound] are
    what SQLAlchemy's [Query.one()] raises (the specification's NotFound
    is the former); [StoreError] is any failure of the durable store
    inside a transaction. *)
Inductive exn :=
  | KeyError (key : string)
  | TypeError
  | NoResultFound
  | MultipleResultsFound
  | StoreError (op : store_op).

Inductive result (A : Type) :=
  | Ok (a : A)
  | Raise (e : exn).
Arguments Ok {A} a.
Arguments Raise {A} e.

#[export] Instance result_ret : MRet result := λ A a, Ok a.
#[export] Instance result_bind : MBind result := λ A B f r,
  match r with
  | Ok a => f a
  | Raise e => Raise e
  end.

(** A key that is a string is its own [str]; an integer key is written
    in decimal. *)
#[export] Instance pretty_string : Pretty string := λ s, s.

(** [d[k]] on a Python dict: [KeyError(k)] when the key is absent. *)
Definition getitem `{Countable K} `{Pretty K} {A} (d : gmap K A) (k : K)
  : result A :=
  match d !! k with
  | Some a => Ok a
  | None => Raise (KeyError (pretty k))
  end.

(** [o['field']] for a field that a dict may lack: [KeyError('field')]
    when it does. *)
Definition getfield {A} (key : string) (o : option A) : result A :=
  match o with
  | Some a => Ok a
  | None => Raise (KeyError key)
  end.

(** [for k in keys: total = body k total], stopping at the first
    exception. *)
Fixpoint for_each {K} (keys : list K) (body : K → Z → result Z) (total : Z)
  : result Z :=
  match keys with
  | [] => Ok total
  | k :: rest => total' ← body k total; for_each rest body total'
  end.

(** A loop body that, at key [k], either adds an amount of its own to any
    total or raises an exception of its own on any total. *)
Definition steady {K} (body : K → Z → result Z) (k : K) : Prop :=
  (∃ h, ∀ t, body k t = Ok (t + h)) ∨ (∃ e, ∀ t, body k t = Raise e).

(** Two runs of a loop end alike when they return the same total, or
    when both raise an exception, which need not be the same one. *)
Definition alike (r1 r2 : result Z) : Prop :=
  match r1, r2 with
  | Ok n1, Ok n2 => n1 = n2
  | Raise _, Raise _ => True
  | _, _ => False
  end.

(** Iterating over a dict yields its keys, each once; the order is the
    implementation's, and no property below depends on it. *)
Definition keys_of `{Countable K} {A} (d : gmap K A) : list K :=
  (map_to_list d).*1.

(* --------------------------------------------------------------------- *)
(* CollectNonGDDepth                                                     *)
(* --------------------------------------------------------------------- *)

Module CollectNonGDDepth.

(** A request or payload value. *)
Inductive value :=
  | VStr (s : string)
  | VInt (n : Z).

(** [pid_data['response']['depth']] *)
Record Response := { depth : Z }.
Record PidData := { response : Response }.

(** [server_data[pid]]: [{'is_ok': ..., 'pid_data': ...}].  A dict may
    lack the data field when the flag is false. *)
Record PidEntry := {
  pid_is_ok : bool;
  pid_data : option PidData
}.

(** [data[server_name]]: [{'is_ok': ..., 'server_data': {pid: ...}}]. *)
Record ServerEntry := {
  is_ok : bool;
  server_data : option (gmap Z PidEntry)
}.

(** The second component of what [servers.invoke_all] returns. *)
Abbreviation Data := (gmap string ServerEntry).

(** [class SimpleIO: input_required = ('topic_name',)] *)
Definition input_required : list string := ["topic_name"].

(** The body of the inner loop, lines 260-262. *)
Definition pid_step (server_data : gmap Z PidEntry) (pid : Z) (total : Z)
  : result Z :=
  entry ← getitem server_data pid;
  if pid_is_ok entry then
    pid_data ← getfield "pid_data" (pid_data entry);
    Ok (total + depth (response pid_data))
  else Ok total.

(** The body of the outer loop, lines 257-262. *)
Definition server_step (data : Data) (server_name : string) (total : Z)
  : result Z :=
  entry ← getitem data server_name;
  if is_ok entry then
    server_data ← getfield "server_data" (server_data entry);
    for_each (keys_of server_data) (pid_step server_data) total
  else Ok total.

(** Lines 253-264: the tally over [data = all_depth[1]]. *)
Definition tally (data : Data) : result Z :=
  for_each (keys_of data) (server_step data) 0.

(** The arguments of a call to [self.servers.invoke_all]. *)
Record Invocation := {
  service : string;
  payload : gmap string value;
  timeout : Z
}.

(** Lines 249-251: the call the handler makes for a request input. *)
Definition invocation (input : gmap string value) : result Invocation :=
  topic_name ← getitem input "topic_name";
  Ok {| service := "zato.pubsub.topic.get-non-gd-depth";
        payload := {[ "topic_name" := topic_name ]};
        timeout := 10 |}.

Section Handle.
(** The RPC substrate, external to the service. *)
Variable invoke_all : Invocation → bool * Data.

(** [CollectNonGDDepth.handle]: the value stored in
    [response.payload.current_depth_non_gd]. *)
Definition handle (input : gmap string value) : result Z :=
  call ← invocation input;
  let all_depth := invoke_all call in
  tally all_depth.2.
End Handle.

(** *** The total as the specification words it *)

Definition sum_Z (l : list Z) : Z := foldr Z.add 0 l.

(** The sum of [g] over the values of a dict. *)
Definition map_sum `{Countable K} {A} (g : A → Z) (m : gmap K A) : Z :=
  sum_Z ((λ kv, g kv.2) <$> map_to_list m).

(** The count a process entry reports. *)
Definition pid_count (p : PidEntry) : Z :=
  from_option (λ d, depth (response d)) 0 (pid_data p).

(** Specification, 4.3 step 4: the sum of count over every process entry
    in every node entry where both the node-level and the process-level
    success flags are true; any other entry contributes zero. *)
Definition node_depth_sum (s : ServerEntry) : Z :=
  map_sum (λ p, if is_ok s && pid_is_ok p then pid_count p else 0)
          (default ∅ (server_data s)).

Definition depth_sum (data : Data) : Z := map_sum node_depth_sum data.

(** A result set is well formed when every entry that is flagged
    successful carries its data; an entry flagged unsuccessful may carry
    anything or nothing. *)
Definition pid_well_formed (p : PidEntry) : Prop :=
  pid_is_ok p = true → is_Some (pid_data p).

Definition server_well_formed (s : ServerEntry) : Prop :=
  is_ok s = true →
  ∃ sd, server_data s = Some sd ∧ map_Forall (λ _ p, pid_well_formed p) sd.

Definition well_formed (data : Data) : Prop :=
  map_Forall (λ _ s, server_well_formed s) data.

(** Every depth value present in the result set is non-negative. *)
Definition depths_nonneg (data : Data) : Prop :=
  map_Forall (λ _ s,
    map_Forall (λ _ p, 0 ≤ pid_count p) (default ∅ (server_data s))) data.

(** The result set with the success flags of the servers in [servers] and
    of the (server, pid) pairs in [pids] turned to false. *)
Definition fail_pid (pids : gset (string * Z)) (server_name : string) (pid : Z)
    (p : PidEntry) : PidEntry :=
  {| pid_is_ok := pid_is_ok p && bool_decide ((server_name, pid) ∉ pids);
     pid_data := pid_data p |}.

Definition fail_server (servers : gset string) (pids : gset (string * Z))
    (server_name : string) (s : ServerEntry) : ServerEntry :=
  {| is_ok := is_ok s && bool_decide (server_name ∉ servers);
     server_data :=
       (λ sd : gmap Z PidEntry,
          map_imap (λ pid p, Some (fail_pid pids server_name pid p)) sd)
       <$> server_data s |}.

Definition mark_failed (servers : gset string) (pids : gset (string * Z))
    (data : Data) : Data :=
  map_imap (λ server_name s, Some (fail_server servers pids server_name s)) data.

(** *** The scenario of the specification, section 8 item 7 *)

Definition pid_ok (n : Z) : PidEntry :=
  {| pid_is_ok := true; pid_data := Some {| response := {| depth := n |} |} |}.

Definition server_ok (sd : gmap Z PidEntry) : ServerEntry :=
  {| is_ok := true; server_data := Some sd |}.

(** Node A: process 1 holds 2 messages, process 2 holds 1; node B holds
    none. *)
Definition orders_healthy : Data :=
  {[ "A" := server_ok {[ 1 := pid_ok 2; 2 := pid_ok 1 ]};
     "B" := server_ok {[ 1 := pid_ok 0 ]} ]}.

(** Node B timed out: its entry is flagged unsuccessful and has no data. *)
Definition orders_B_failed : Data :=
  {[ "A" := server_ok {[ 1 := pid_ok 2; 2 := pid_ok 1 ]};
     "B" := {| is_ok := false; server_data := None |} ]}.

(** Process 2 of node A failed. *)
Definition orders_A2_failed : Data :=
  {[ "A" := server_ok {[ 1 := pid_ok 2;
                         2 := {| pid_is_ok := false; pid_data := None |} ]};
     "B" := server_ok {[ 1 := pid_ok 0 ]} ]}.

(** Two faulty entries: node A is flagged successful and has no
    server_data; process 1 of node B is flagged successful and has no
    pid_data. *)
Definition two_faults : Data :=
  {[ "A" := {| is_ok := true; server_data := None |};
     "B" := server_ok {[ 1 := {| pid_is_ok := true; pid_data := None |} ]} ]}.

Definition orders_input : gmap string value := {[ "topic_name" := VStr "orders" ]}.

(** A request that also carries a timeout of 5 seconds. *)
Definition orders_input_timeout : gmap string value :=
  {[ "topic_name" := VStr "orders"; "timeout" := VInt 5 ]}.

End CollectNonGDDepth.

(* --------------------------------------------------------------------- *)
(* Clear                                                                 *)
(* --------------------------------------------------------------------- *)

(** Rows of the three ODB tables [Clear.handle] touches, with the columns
    it filters on or reads. *)
Module PubSubTopic.
Record t := { id : Z; cluster_id : Z; name : string }.
End PubSubTopic.

Module PubSubMessage.
Record t := { id : Z; cluster_id : Z; topic_id : Z }.
End PubSubMessage.

Module PubSubEndpointEnqueuedMessage.
Record t := { id : Z; cluster_id : Z; topic_id : Z }.
End PubSubEndpointEnqueuedMessage.

Module Clear.

(** The durable store: one list of rows per table. *)
Record ODB := {
  topics : list PubSubTopic.t;
  messages : list PubSubMessage.t;
  enqueued : list PubSubEndpointEnqueuedMessage.t
}.

(** What an observer of one call can see happen, in order. *)
Inductive event :=
  | LockAcquired (key : string)
  | LockReleased (key : string)
  | Deleted (op : store_op)
  | Committed.

(** [odb] is the committed state of the store, [session] the state as the
    open SQLAlchemy session sees it (its transaction's pending changes
    applied), [log] the events so far. *)
Record World := {
  odb : ODB;
  session : ODB;
  log : list event
}.

Definition emit (e : event) (w : World) : World :=
  {| odb := odb w; session := session w; log := (log w ++ [e])%list |}.

(** Computations that read and change the world and may raise. *)
Definition io (A : Type) : Type := World → result A * World.

#[export] Instance io_ret : MRet io := λ A a w, (Ok a, w).
#[export] Instance io_bind : MBind io := λ A B f m w,
  match m w with
  | (Ok a, w') => f a w'
  | (Raise e, w') => (Raise e, w')
  end.

(** [with closing(self.odb.session()) as session: body]: the session
    starts from the committed state; closing it drops what was not
    committed. *)
Definition closing_session {A} (body : io A) : io A := λ w,
  let '(r, w') := body {| odb := odb w; session := odb w; log := log w |} in
  (r, {| odb := odb w'; session := odb w'; log := log w' |}).

(** [with self.lock(key): body]: the lock is released when the block is
    left, normally or by an exception. *)
Definition with_lock {A} (key : string) (body : io A) : io A := λ w,
  let '(r, w') := body (emit (LockAcquired key) w) in
  (r, emit (LockReleased key) w').

(** [Query.one()] *)
Definition one {A} (rows : list A) : result A :=
  match rows with
  | [] => Raise NoResultFound
  | [row] => Ok row
  | _ => Raise MultipleResultsFound
  end.

Definition topic_matches (cluster_id id : Z) (row : PubSubTopic.t) : bool :=
  (PubSubTopic.cluster_id row =? cluster_id) && (PubSubTopic.id row =? id).

Definition message_matches (cluster_id id : Z) (row : PubSubMessage.t) : bool :=
  (PubSubMessage.cluster_id row =? cluster_id) && (PubSubMessage.topic_id row =? id).

Definition enqueued_matches (cluster_id id : Z)
    (row : PubSubEndpointEnqueuedMessage.t) : bool :=
  (PubSubEndpointEnqueuedMessage.cluster_id row =? cluster_id) &&
  (PubSubEndpointEnqueuedMessage.topic_id row =? id).

(** [DELETE FROM table WHERE p]: the rows that stay. *)
Definition delete_where {A} (p : A → bool) (rows : list A) : list A :=
  List.filter (λ row, negb (p row)) rows.

Section Handle.
(** Which steps of the transaction the durable store fails at. *)
Variable fails : store_op → bool.

(** Lines 123-126. *)
Definition query_topic (cluster_id id : Z) : io PubSubTopic.t := λ w,
  (one (List.filter (topic_matches cluster_id id) (topics (session w))), w).

(** Lines 131-134. *)
Definition delete_messages (cluster_id id : Z) : io unit := λ w,
  if fails OpDeleteMessages then (Raise (StoreError OpDeleteMessages), w)
  else
    let s := session w in
    (Ok (),
     emit (Deleted OpDeleteMessages)
       {| odb := odb w;
          session := {| topics := topics s;
                        messages := delete_where (message_matches cluster_id id) (messages s);
                        enqueued := enqueued s |};
          log := log w |}).

(** Lines 137-140. *)
Definition delete_enqueued (cluster_id id : Z) : io unit := λ w,
  if fails OpDeleteEnqueued then (Raise (StoreError OpDeleteEnqueued), w)
  else
    let s := session w in
    (Ok (),
     emit (Deleted OpDeleteEnqueued)
       {| odb := odb w;
          session := {| topics := topics s;
                        messages := messages s;
                        enqueued := delete_where (enqueued_matches cluster_id id) (enqueued s) |};
          log := log w |}).

(** Line 142. *)
Definition commit : io unit := λ w,
  if fails OpCommit then (Raise (StoreError OpCommit), w)
  else
    (Ok (), emit Committed {| odb := session w; session := session w; log := log w |}).

(** [Clear.handle], lines 120-142. *)
Definition handle (cluster_id id : Z) : io unit :=
  closing_session (
    topic ← query_topic cluster_id id;
    with_lock ("zato.pubsub.publish." +:+ PubSubTopic.name topic) (
      delete_messages cluster_id id;;
      delete_enqueued cluster_id id;;
      commit)).
End Handle.

(** A world with no open transaction. *)
Definition at_rest (db : ODB) (l : list event) : World :=
  {| odb := db; session := db; log := l |}.

(** A call of the service on a store at rest. *)
Definition run (fails : store_op → bool) (cluster_id id : Z) (db : ODB)
  : result unit * World :=
  handle fails cluster_id id (at_rest db []).

(** The store with the rows of one topic of one cluster taken out of the
    durable-message and the enqueued-reference tables. *)
Definition cleared (cluster_id id : Z) (db : ODB) : ODB :=
  {| topics := topics db;
     messages := delete_where (message_matches cluster_id id) (messages db);
     enqueued := delete_where (enqueued_matches cluster_id id) (enqueued db) |}.

(** Modelled from the spec: the publish path is not under src/; the
    specification says it locks on the string 'zato.pubsub.publish.'
    followed by the topic name. *)
Definition publish_lock_key (topic_name : string) : string :=
  "zato.pubsub.publish." +:+ topic_name.

(** The per-topic counts of the specification: rows of the durable-message
    table, and of the enqueued-reference table, of one topic of one
    cluster. *)
Definition message_count (db : ODB) (cluster_id id : Z) : nat :=
  length (List.filter (message_matches cluster_id id) (messages db)).

Definition enqueued_count (db : ODB) (cluster_id id : Z) : nat :=
  length (List.filter (enqueued_matches cluster_id id) (enqueued db)).

(** A store with two topics of cluster 1, durable messages of both and
    references to them in subscriber queues. *)
Definition orders_db : ODB :=
  {| topics :=
       [ {| PubSubTopic.id := 7; PubSubTopic.cluster_id := 1;
            PubSubTopic.name := "orders" |};
         {| PubSubTopic.id := 8; PubSubTopic.cluster_id := 1;
            PubSubTopic.name := "invoices" |} ];
     messages :=
       [ {| PubSubMessage.id := 1; PubSubMessage.cluster_id := 1;
            PubSubMessage.topic_id := 7 |};
         {| PubSubMessage.id := 2; PubSubMessage.cluster_id := 1;
            PubSubMessage.topic_id := 8 |};
         {| PubSubMessage.id := 3; PubSubMessage.cluster_id := 1;
            PubSubMessage.topic_id := 7 |} ];
     enqueued :=
       [ {| PubSubEndpointEnqueuedMessage.id := 1;
            PubSubEndpointEnqueuedMessage.cluster_id := 1;
            PubSubEndpointEnqueuedMessage.topic_id := 7 |};
         {| PubSubEndpointEnqueuedMessage.id := 2;
            PubSubEndpointEnqueuedMessage.cluster_id := 1;
            PubSubEndpointEnqueuedMessage.topic_id := 8 |} ] |}.

(** A durable store that never fails, and one whose commit fails. *)
Definition no_failure (op : store_op) : bool := false.

Definition commit_fails (op : store_op) : bool :=
  match op with
  | OpCommit => true
  | _ => false
  end.

End Clear.

(* --------------------------------------------------------------------- *)
(* GetInRAMMessageList                                                   *)
(* --------------------------------------------------------------------- *)

Module GetInRAMMessageList.

(** msg_id -> message data *)
Abbreviation Messages := (gmap string string).
(** sub_key -> msg_id -> message data *)
Abbreviation SubKeyMessages := (gmap string (gmap string string)).
(** topic_id -> sub_key -> msg_id -> message data *)
Abbreviation Backlog := (gmap Z (gmap string (gmap string string))).

(** Lines 213-214: [topic_sub_keys.setdefault(topic_id, []).append(sub_key)]. *)
Definition group_step (topic_sub_keys : gmap Z (list string)) (row : Z * string)
  : gmap Z (list string) :=
  let '(topic_id, sub_key) := row in
  <[topic_id := (default [] (topic_sub_keys !! topic_id) ++ [sub_key])%list]> topic_sub_keys.

(** Lines 209-214. *)
Definition group (rows : list (Z * string)) : gmap Z (list string) :=
  foldl group_step ∅ rows.

(** The keys of [topic_sub_keys] in the order in which lines 212-214
    insert them: [setdefault] adds a topic id to the dict the first time
    a row has it, and leaves the dict's keys as they are after that. *)
Definition insert_key (topic_ids : list Z) (row : Z * string) : list Z :=
  if decide (row.1 ∈ topic_ids) then topic_ids else (topic_ids ++ [row.1])%list.

Definition insertion_order (rows : list (Z * string)) : list Z :=
  foldl insert_key [] rows.

(** [topic_sub_keys.items()], line 216: the items of the dict, in the
    order in which their keys were inserted.  This is the order of a dict
    from CPython 3.6 on; the hash-table order of CPython 2 is the same on
    topic ids below 8 that come in increasing order, as they do in the
    examples below. *)
Definition topic_sub_keys_items (rows : list (Z * string))
  : list (Z * list string) :=
  (λ topic_id, (topic_id, default [] (group rows !! topic_id)))
    <$> insertion_order rows.

Section Handle.
(** The ODB query [get_topics_by_sub_keys(session, cluster_id, sub_keys)],
    an external lookup: the (topic_id, sub_key) rows of the input keys. *)
Variable get_topics_by_sub_keys : Z → list string → list (Z * string).

(** [self.pubsub.delivery_backlog.retrieve_messages_by_sub_keys], which
    is not under src/: what it returns for a topic and its keys, and
    the backlog it leaves. *)
Variable retrieve_messages_by_sub_keys :
  Backlog → Z → list string → SubKeyMessages * Backlog.

(** Lines 216-222, over the items of [topic_sub_keys] in iteration
    order: each pass drains from the backlog the pass before left, and
    [out.update(data)] lets the entries of [data] win. *)
Fixpoint drain_loop (items : list (Z * list string)) (out : SubKeyMessages)
    (backlog : Backlog) : SubKeyMessages * Backlog :=
  match items with
  | [] => (out, backlog)
  | (topic_id, sub_keys) :: rest =>
      let '(data, backlog') :=
        retrieve_messages_by_sub_keys backlog topic_id sub_keys in
      drain_loop rest (data ∪ out) backlog'
  end.

(** [GetInRAMMessageList.handle]: [response.payload.messages] and the
    backlog afterwards. *)
Definition handle (cluster_id : Z) (sub_key_list : list string) (backlog : Backlog)
  : SubKeyMessages * Backlog :=
  let rows := get_topics_by_sub_keys cluster_id sub_key_list in
  drain_loop (topic_sub_keys_items rows) ∅ backlog.

(** The values [data] takes in the loop of lines 216-222, in order. *)
Fixpoint drain_results (items : list (Z * list string)) (backlog : Backlog)
  : list SubKeyMessages :=
  match items with
  | [] => []
  | (topic_id, sub_keys) :: rest =>
      let '(data, backlog') :=
        retrieve_messages_by_sub_keys backlog topic_id sub_keys in
      data :: drain_results rest backlog'
  end.

(** The backlog at the start of each pass of the loop, in order, and
    then the backlog the last pass leaves. *)
Fixpoint drain_stores (items : list (Z * list string)) (backlog : Backlog)
  : list Backlog :=
  match items with
  | [] => [backlog]
  | (topic_id, sub_keys) :: rest =>
      let '(data, backlog') :=
        retrieve_messages_by_sub_keys backlog topic_id sub_keys in
      backlog :: drain_stores rest backlog'
  end.
End Handle.

(** Specification, 4.5 step 2: the subscriber keys that resolve to a
    topic, in the order of the lookup's rows. *)
Definition sub_keys_of (rows : list (Z * string)) (topic_id : Z) : list string :=
  (filter (λ row, row.1 = topic_id) rows).*2.

(** Specification, 3: a subscriber key is bound to one topic. *)
Definition one_topic_per_sub_key (rows : list (Z * string)) : Prop :=
  ∀ topic_id1 topic_id2 sub_key,
    (topic_id1, sub_key) ∈ rows → (topic_id2, sub_key) ∈ rows →
    topic_id1 = topic_id2.

(** What the handler relies on in the drain: the mapping it returns has
    entries for the keys it was given only. *)
Definition returns_given_keys
    (retrieve : Backlog → Z → list string → SubKeyMessages * Backlog) : Prop :=
  ∀ backlog topic_id sub_keys sub_key,
    is_Some ((retrieve backlog topic_id sub_keys).1 !! sub_key) →
    sub_key ∈ sub_keys.

End GetInRAMMessageList.

Module DeliveryBacklog.
Import GetInRAMMessageList.

(** Modelled from the spec: [delivery_backlog.retrieve_messages_by_sub_keys]
    is not under src/.  Specification, 4.1: it removes and returns all
    messages for the given subscriber keys under the topic, as a mapping
    sub_key -> (msg_id -> message); a subscriber key that is not present
    yields an empty result for that key; once returned, a message is no
    longer in the store. *)
Definition retrieve_messages_by_sub_keys (backlog : Backlog) (topic_id : Z)
    (sub_keys : list string) : SubKeyMessages * Backlog :=
  let of_topic : SubKeyMessages := default ∅ (backlog !! topic_id) in
  (list_to_map ((λ sub_key, (sub_key, default ∅ (of_topic !! sub_key))) <$> sub_keys),
   alter (λ m, foldr delete m sub_keys) topic_id backlog).

(** A backlog with messages for two subscribers of topic 1. *)
Definition sample_backlog : Backlog :=
  {[ 1 := {[ "sk.a" := {[ "msg.1" := "hello" ]};
             "sk.z" := {[ "msg.2" := "world" ]} ]} ]}.

(** A lookup that binds sk.a and sk.c to topic 1 and sk.b to topic 2. *)
Definition sample_lookup (cluster_id : Z) (sub_keys : list string)
  : list (Z * string) :=
  List.filter (λ row, bool_decide (row.2 ∈ sub_keys))
    [(1, "sk.a"); (2, "sk.b"); (1, "sk.c")].

(** A lookup that binds the key sk.a to topic 1 and to topic 2, and a
    backlog that holds a message for it under either topic. *)
Definition shared_lookup (cluster_id : Z) (sub_keys : list string)
  : list (Z * string) :=
  [(1, "sk.a"); (2, "sk.a")].

Definition shared_backlog : Backlog :=
  {[ 1 := {[ "sk.a" := {[ "msg.1" := "hello" ]} ]};
     2 := {[ "sk.a" := {[ "msg.2" := "world" ]} ]} ]}.

End DeliveryBacklog.

(* --------------------------------------------------------------------- *)
(* response_hook and GetPublisherList                                    *)
(* --------------------------------------------------------------------- *)

(** A field that may hold None: [None] is Python's None. *)
Abbreviation field := (option CollectNonGDDepth.value).

(** Python's truth value of a field: None, 0 and the empty string are
    false. *)
Definition truthy (v : field) : bool :=
  match v with
  | None => false
  | Some (CollectNonGDDepth.VInt n) => negb (n =? 0)
  | Some (CollectNonGDDepth.VStr s) => negb (String.eqb s "")
  end.

Module ResponseHook.
Import CollectNonGDDepth.

(** An item of the payload of GetList, with the attributes the hook reads
    or sets. *)
Record Item := {
  name : string;
  id : Z;
  last_pub_time : field;
  current_depth_non_gd : field;
  current_depth_gd : field
}.

Definition set_current_depth_non_gd (v : field) (item : Item) : Item :=
  {| name := name item; id := id item; last_pub_time := last_pub_time item;
     current_depth_non_gd := v; current_depth_gd := current_depth_gd item |}.

Definition set_current_depth_gd (v : field) (item : Item) : Item :=
  {| name := name item; id := id item; last_pub_time := last_pub_time item;
     current_depth_non_gd := current_depth_non_gd item; current_depth_gd := v |}.

Definition set_last_pub_time (v : field) (item : Item) : Item :=
  {| name := name item; id := id item; last_pub_time := v;
     current_depth_non_gd := current_depth_non_gd item;
     current_depth_gd := current_depth_gd item |}.

Section Hook.
(** [self.invoke(name, payload)]: the response of the service invoked. *)
Variable invoke :
  string → gmap string value → result (gmap string (gmap string value)).

(** [get_gd_depth_topic(session, cluster_id, topic_id)], an ODB query. *)
Variable get_gd_depth_topic : Z → Z → result field.

(** [datetime_from_ms], of zato.common.util.time_. *)
Variable datetime_from_ms : field → result field.

(** Lines 60-62. *)
Definition collect_depth (item : Item) : result field :=
  response ← invoke "zato.pubsub.topic.collect-non-gd-depth"
                {[ "topic_name" := VStr (name item) ]};
  inner ← getitem response "response";
  depth ← getitem inner "current_depth_non_gd";
  Ok (Some depth).

(** Lines 59-68, the body of the loop: the item is changed in place, so
    that what was assigned before an exception stays assigned. *)
Definition hook_item (cluster_id : Z) (item : Item) : Item * result unit :=
  match collect_depth item with
  | Raise e => (item, Raise e)
  | Ok depth =>
      let item := set_current_depth_non_gd depth item in
      match get_gd_depth_topic cluster_id (id item) with
      | Raise e => (item, Raise e)
      | Ok depth_gd =>
          let item := set_current_depth_gd depth_gd item in
          if truthy (last_pub_time item) then
            match datetime_from_ms (last_pub_time item) with
            | Raise e => (item, Raise e)
            | Ok time => (set_last_pub_time time item, Ok ())
            end
          else (item, Ok ())
      end
  end.

(** Lines 57-68: the loop over the payload stops at the first
    exception. *)
Fixpoint hook_loop (cluster_id : Z) (payload : list Item)
  : list Item * result unit :=
  match payload with
  | [] => ([], Ok ())
  | item :: rest =>
      match hook_item cluster_id item with
      | (item', Raise e) => (item' :: rest, Raise e)
      | (item', Ok _) =>
          let '(rest', r) := hook_loop cluster_id rest in
          (item' :: rest', r)
      end
  end.

(** [response_hook], lines 54-68: the payload afterwards and how the call
    ended. *)
Definition response_hook (service_type : string) (cluster_id : Z)
    (payload : list Item) : list Item * result unit :=
  if String.eqb service_type "get_list" then hook_loop cluster_id payload
  else (payload, Ok ()).
End Hook.

(** What [self.invoke] returns for the service CollectNonGDDepth, as
    [response_hook] reads it: the total under
    ['response']['current_depth_non_gd']; any other service name is
    unknown here. *)
Definition invoke_collect (invoke_all : Invocation → bool * Data)
    (service_name : string) (payload : gmap string value)
  : result (gmap string (gmap string value)) :=
  if String.eqb service_name "zato.pubsub.topic.collect-non-gd-depth" then
    total ← CollectNonGDDepth.handle invoke_all payload;
    Ok {[ "response" := {[ "current_depth_non_gd" := VInt total ]} ]}
  else Raise (KeyError service_name).

(** The call the fan-out receives for a topic name. *)
Definition fan_out_call (topic_name : string) : Invocation :=
  {| service := "zato.pubsub.topic.get-non-gd-depth";
     payload := {[ "topic_name" := VStr topic_name ]};
     timeout := 10 |}.

(** Two topics as GetList returns them: one published to at 1500000000000
    ms, one never published to. *)
Definition orders_item : Item :=
  {| name := "orders"; id := 7; last_pub_time := Some (VInt 1500000000000);
     current_depth_non_gd := None; current_depth_gd := None |}.

Definition invoices_item : Item :=
  {| name := "invoices"; id := 8; last_pub_time := None;
     current_depth_non_gd := None; current_depth_gd := None |}.

(** A fan-out that answers for the topic orders, and for any other topic
    returns a server entry flagged successful that has no data. *)
Definition orders_only (call : Invocation) : bool * Data :=
  match payload call !! "topic_name" with
  | Some (VStr "orders") => (true, orders_healthy)
  | _ => (true, {[ "A" := {| is_ok := true; server_data := None |} ]})
  end.

(** Stand-ins for the ODB query and the time conversion. *)
Definition sample_gd_depth (cluster_id topic_id : Z) : result field :=
  Ok (Some (VInt 2)).

Definition sample_datetime (v : field) : result field :=
  match v with
  | Some (VInt _) => Ok (Some (VStr "2017-07-14T02:40:00"))
  | _ => Raise TypeError
  end.

End ResponseHook.

Module GetPublisherList.
Import CollectNonGDDepth.

(** A row of [pubsub_publishers_for_topic], with the attributes the
    handler reads or sets. *)
Record Publisher := {
  name : string;
  last_pub_time : field;
  last_seen : field
}.

Section Handle.
(** [datetime_from_ms], of zato.common.util.time_. *)
Variable datetime_from_ms : field → result field.

(** Lines 165-167. *)
Definition convert (item : Publisher) : result Publisher :=
  seen ← datetime_from_ms (last_pub_time item);
  let item := {| name := name item; last_pub_time := last_pub_time item;
                 last_seen := seen |} in
  time ← datetime_from_ms (last_pub_time item);
  Ok {| name := name item; last_pub_time := time; last_seen := last_seen item |}.

(** Lines 157-167: [response] after the loop. *)
Fixpoint convert_all (last_data : list Publisher) : result (list Publisher) :=
  match last_data with
  | [] => Ok []
  | item :: rest =>
      item' ← convert item;
      rest' ← convert_all rest;
      Ok (item' :: rest')
  end.

(** [GetPublisherList.handle] on the rows of the query: the payload is
    assigned after the loop, so an exception leaves it as it was. *)
Definition handle (last_data : list Publisher) (payload : list Publisher)
  : list Publisher * result unit :=
  match convert_all last_data with
  | Ok response => (response, Ok ())
  | Raise e => (payload, Raise e)
  end.
End Handle.

End GetPublisherList.

(* --------------------------------------------------------------------- *)
(* zato-web-admin: views/http_soap.py                                    *)
(*   code/zato-web-admin/src/zato/admin/web/views/http_soap.py           *)
(* --------------------------------------------------------------------- *)

Module HttpSoap.

(** The values that form fields, messages and responses hold. *)
Inductive pyval :=
  | PNone
  | PBool (b : bool)
  | PInt (n : Z)
  | PStr (s : string).

(** [bool(v)] *)
Definition truth (v : pyval) : bool :=
  match v with
  | PNone => false
  | PBool b => b
  | PInt n => negb (n =? 0)
  | PStr s => negb (String.eqb s "")
  end.

(** ['{}'.format(v)] *)
Definition str (v : pyval) : string :=
  match v with
  | PNone => "None"
  | PBool true => "True"
  | PBool false => "False"
  | PInt n => pretty n
  | PStr s => s
  end.

(** The exceptions raised in the views: a missing key of a dict or of the
    form data, a missing attribute of a response, [ZatoException], and
    whatever a helper or the client raises. *)
Inductive exception :=
  | KeyError (key : string)
  | AttributeError (name : string)
  | ZatoException (msg : pyval)
  | Failure (text : string).

Inductive outcome (A : Type) :=
  | Return (a : A)
  | Raised (e : exception).
Arguments Return {A} a.
Arguments Raised {A} e.

#[export] Instance outcome_ret : MRet outcome := λ A a, Return a.
#[export] Instance outcome_bind : MBind outcome := λ A B f r,
  match r with
  | Return a => f a
  | Raised e => Raised e
  end.

(** [d[key]] on a dict with string keys, and on the form data. *)
Definition getitem {A} (d : gmap string A) (key : string) : outcome A :=
  match d !! key with
  | Some a => Return a
  | None => Raised (KeyError key)
  end.

(** [params.get(key)] and [params.get(key, default)] on the form data. *)
Definition get (params : gmap string string) (key : string) : pyval :=
  from_option PStr PNone (params !! key).

Definition get_default (params : gmap string string) (key : string)
    (default : pyval) : pyval :=
  from_option PStr default (params !! key).

(** [response.data.name] *)
Definition getattr (data : gmap string pyval) (name : string) : outcome pyval :=
  match data !! name with
  | Some v => Return v
  | None => Raised (AttributeError name)
  end.

(** Lines 35-48. *)
Definition CONNECTION : gmap string string :=
  {[ "channel" := "channel"; "outgoing" := "outgoing connection" ]}.

Definition CONNECTION_PLURAL : gmap string string :=
  {[ "channel" := "channels"; "outgoing" := "outgoing connections" ]}.

Definition TRANSPORT : gmap string string :=
  {[ "plain_http" := "REST"; "soap" := "SOAP" ]}.

(** The constants of zato.common that the views use. *)
Record Common := {
  URL_PARAMS_PRIORITY_DEFAULT : pyval;
  PARAMS_PRIORITY_DEFAULT : pyval;
  HTTP_SOAP_SERIALIZATION_TYPE_DEFAULT_id : pyval;
  CACHE_TYPE_BUILTIN : string;
  CACHE_TYPE_MEMCACHED : string
}.

(** Lines 50-53; in a dict display a later entry replaces an earlier one
    with the same key. *)
Definition CACHE_TYPE (common : Common) : gmap string string :=
  <[CACHE_TYPE_MEMCACHED common := "Memcached"]>
    (<[CACHE_TYPE_BUILTIN common := "Built-in"]> ∅).

(** A response of the client: [has_data], [data] and [details]. *)
Record Response := {
  has_data : bool;
  data : gmap string pyval;
  details : pyval
}.

(** A request: the form data and [req.zato.cluster_id]. *)
Record Request := {
  POST : gmap string string;
  cluster_id : pyval
}.

(** What a view returns. *)
Inductive http_response :=
  | HttpResponse (content : string) (content_type : option string)
  | HttpResponseServerError (content : string)
  | HttpResponseRedirect (url : string).

(** An invocation of a service through [req.zato.client]. *)
Definition Call : Type := string * gmap string pyval.

(** A view runs against the log of the invocations made so far. *)
Definition web (A : Type) : Type := list Call → outcome A * list Call.

#[export] Instance web_ret : MRet web := λ A a log, (Return a, log).
#[export] Instance web_bind : MBind web := λ A B f m log,
  match m log with
  | (Return a, log') => f a log'
  | (Raised e, log') => (Raised e, log')
  end.

Definition lift {A} (r : outcome A) : web A := λ log, (r, log).

Section Views.
Variable common : Common.

(** [get_security_id_from_select], of zato.admin.web.views. *)
Variable get_security_id_from_select : gmap string string → string → outcome pyval.

(** The servers behind [req.zato.client.invoke]. *)
Variable server : string → gmap string pyval → outcome Response.

(** [anyjson.dumps] and [traceback.format_exc]. *)
Variable dumps : gmap string pyval → string.
Variable format_exc : exception → string.

(** [req.zato.client.invoke(name, payload)] *)
Definition invoke (name : string) (payload : gmap string pyval) : web Response :=
  λ log, (server name payload, (log ++ [(name, payload)])%list).

(** Lines 55-91. *)
Definition _get_edit_create_message (params : gmap string string)
    (prefix : string) : outcome (gmap string pyval) :=
  security_id ← get_security_id_from_select params prefix;
  connection ← getitem params "connection";
  transport ← getitem params "transport";
  cluster_id ← getitem params "cluster_id";
  name ← getitem params (prefix +:+ "name");
  url_path ← getitem params (prefix +:+ "url_path");
  Return (list_to_map [
    ("is_internal", PBool false);
    ("connection", PStr connection);
    ("transport", PStr transport);
    ("id", get params "id");
    ("cluster_id", PStr cluster_id);
    ("name", PStr name);
    ("is_active", PBool (truth (get params (prefix +:+ "is_active"))));
    ("host", get params (prefix +:+ "host"));
    ("url_path", PStr url_path);
    ("merge_url_params_req",
       PBool (truth (get params (prefix +:+ "merge_url_params_req"))));
    ("match_slash", PBool (truth (get params (prefix +:+ "match_slash"))));
    ("url_params_pri",
       get_default params (prefix +:+ "url_params_pri")
         (URL_PARAMS_PRIORITY_DEFAULT common));
    ("params_pri",
       get_default params (prefix +:+ "params_pri") (PARAMS_PRIORITY_DEFAULT common));
    ("serialization_type",
       get_default params (prefix +:+ "serialization_type")
         (HTTP_SOAP_SERIALIZATION_TYPE_DEFAULT_id common));
    ("method", get params (prefix +:+ "method"));
    ("soap_action", get_default params (prefix +:+ "soap_action") (PStr ""));
    ("soap_version", get_default params (prefix +:+ "soap_version") PNone);
    ("data_format", get_default params (prefix +:+ "data_format") PNone);
    ("service", get params (prefix +:+ "service"));
    ("ping_method", get params (prefix +:+ "ping_method"));
    ("pool_size", get params (prefix +:+ "pool_size"));
    ("timeout", get params (prefix +:+ "timeout"));
    ("sec_tls_ca_cert_id", get params (prefix +:+ "sec_tls_ca_cert_id"));
    ("security_id", security_id);
    ("has_rbac", PBool (truth (get params (prefix +:+ "has_rbac"))));
    ("content_type", get params (prefix +:+ "content_type"));
    ("cache_id", get params (prefix +:+ "cache_id"));
    ("cache_expiry", get params (prefix +:+ "cache_expiry"));
    ("content_encoding", get params (prefix +:+ "content_encoding"))
  ]).

(** Lines 98-99. *)
Definition success_message (verb transport_label connection_label name : string)
  : string :=
  "Successfully " +:+ verb +:+ " the " +:+ transport_label +:+ " "
  +:+ connection_label +:+ " `" +:+ name
  +:+ "`, check server logs for details".

(** Lines 108-113. *)
Definition cache_of (response : Response) : outcome (pyval * pyval) :=
  cache_id ← getattr (data response) "cache_id";
  if truth cache_id then
    cache_type ← getattr (data response) "cache_type";
    label ← match cache_type with
            | PStr key => getitem (CACHE_TYPE common) key
            | other => Raised (KeyError (str other))
            end;
    cache_name ← getattr (data response) "cache_name";
    Return (cache_type, PStr (label +:+ "/" +:+ str cache_name))
  else Return (PNone, PNone).

(** Lines 93-118. *)
Definition _edit_create_response (req : Request) (id : pyval)
    (verb transport connection name : string) : web http_response :=
  transport_label ← lift (getitem TRANSPORT transport);
  connection_label ← lift (getitem CONNECTION connection);
  let return_data : gmap string pyval :=
    {[ "id" := id;
       "transport" := PStr transport;
       "message" :=
         PStr (success_message verb transport_label connection_label name) ]} in
  response ← invoke "zato.http-soap.get"
               {[ "cluster_id" := cluster_id req; "id" := id ]};
  cache ← lift (cache_of response);
  let return_data := <["cache_type" := cache.1]> return_data in
  let return_data := <["cache_name" := cache.2]> return_data in
  mret (HttpResponse (dumps return_data) (Some "application/javascript")).

(** Lines 246-258, the view under its method guard. *)
Definition create (req : Request) : list Call → http_response * list Call :=
  λ log,
  match
    (message ← lift (_get_edit_create_message (POST req) "");
     response ← invoke "zato.http-soap.create" message;
     if has_data response then
       id ← lift (getattr (data response) "id");
       transport ← lift (getitem (POST req) "transport");
       connection ← lift (getitem (POST req) "connection");
       name ← lift (getitem (POST req) "name");
       _edit_create_response req id "created" transport connection name
     else lift (Raised (ZatoException (details response)))) log
  with
  | (Return response, log') => (response, log')
  | (Raised e, log') =>
      (HttpResponseServerError
         ("Could not create the object, e:[" +:+ format_exc e +:+ "]"), log')
  end.

(** Lines 260-272, the view under its method guard. *)
Definition edit (req : Request) : list Call → http_response * list Call :=
  λ log,
  match
    (message ← lift (_get_edit_create_message (POST req) "edit-");
     response ← invoke "zato.http-soap.edit" message;
     if has_data response then
       id ← lift (getattr (data response) "id");
       transport ← lift (getitem (POST req) "transport");
       connection ← lift (getitem (POST req) "connection");
       name ← lift (getitem (POST req) "edit-name");
       _edit_create_response req id "updated" transport connection name
     else lift (Raised (ZatoException (details response)))) log
  with
  | (Return response, log') => (response, log')
  | (Raised e, log') =>
      (HttpResponseServerError
         ("Could not perform the update, e:`" +:+ format_exc e +:+ "`"), log')
  end.
End Views.

(** The payload of the call with which [_edit_create_response] reads the
    object back, lines 103-106. *)
Definition get_payload (req : Request) (id : pyval) : gmap string pyval :=
  {[ "cluster_id" := cluster_id req; "id" := id ]}.

(** The keys of the form data that [_get_edit_create_message] subscripts,
    in the order in which it does. *)
Definition required_keys (prefix : string) : list string :=
  ["connection"; "transport"; "cluster_id"; prefix +:+ "name";
   prefix +:+ "url_path"].

(** All the keys of the form data that it reads. *)
Definition read_keys (prefix : string) : list string :=
  ["connection"; "transport"; "id"; "cluster_id"] ++
  ((λ key, prefix +:+ key) <$>
   ["name"; "is_active"; "host"; "url_path"; "merge_url_params_req";
    "match_slash"; "url_params_pri"; "params_pri"; "serialization_type";
    "method"; "soap_action"; "soap_version"; "data_format"; "service";
    "ping_method"; "pool_size"; "timeout"; "sec_tls_ca_cert_id"; "has_rbac";
    "content_type"; "cache_id"; "cache_expiry"; "content_encoding"]).

(** The keys of the message it builds. *)
Definition message_keys : list string :=
  ["is_internal"; "connection"; "transport"; "id"; "cluster_id"; "name";
   "is_active"; "host"; "url_path"; "merge_url_params_req"; "match_slash";
   "url_params_pri"; "params_pri"; "serialization_type"; "method";
   "soap_action"; "soap_version"; "data_format"; "service"; "ping_method";
   "pool_size"; "timeout"; "sec_tls_ca_cert_id"; "security_id"; "has_rbac";
   "content_type"; "cache_id"; "cache_expiry"; "content_encoding"].

(** *** A sample installation *)

Definition sample_common : Common :=
  {| URL_PARAMS_PRIORITY_DEFAULT := PStr "qs-over-path";
     PARAMS_PRIORITY_DEFAULT := PStr "channel-params-over-msg";
     HTTP_SOAP_SERIALIZATION_TYPE_DEFAULT_id := PStr "string";
     CACHE_TYPE_BUILTIN := "builtin";
     CACHE_TYPE_MEMCACHED := "memcached" |}.

Definition sample_security (params : gmap string string) (prefix : string)
  : outcome pyval :=
  security ← getitem params (prefix +:+ "security");
  Return (PStr security).

(** A server that creates or updates any object under the id 12 and
    reports no cache for it. *)
Definition created_response : Response :=
  {| has_data := true; data := {[ "id" := PInt 12 ]}; details := PNone |}.

Definition uncached_response : Response :=
  {| has_data := true; data := {[ "cache_id" := PNone ]}; details := PNone |}.

Definition sample_server (name : string) (payload : gmap string pyval)
  : outcome Response :=
  if String.eqb name "zato.http-soap.get" then Return uncached_response
  else Return created_response.

Definition sample_dumps (return_data : gmap string pyval) : string :=
  str (default PNone (return_data !! "message")).

Definition sample_format_exc (e : exception) : string :=
  match e with
  | KeyError key => "KeyError: " +:+ key
  | AttributeError name => "AttributeError: " +:+ name
  | ZatoException msg => "ZatoException: " +:+ str msg
  | Failure text => text
  end.

(** The form of a new REST channel. *)
Definition channel_form : gmap string string :=
  {[ "connection" := "channel"; "transport" := "plain_http";
     "cluster_id" := "1"; "name" := "crm.customer";
     "url_path" := "/crm/customer"; "security" := "ZATO_NONE";
     "is_active" := "on" ]}.

(** The edit form of the same channel. *)
Definition channel_edit_form : gmap string string :=
  {[ "connection" := "channel"; "transport" := "plain_http";
     "cluster_id" := "1"; "id" := "12"; "edit-name" := "crm.customer.v2";
     "edit-url_path" := "/crm/customer"; "edit-security" := "ZATO_NONE" ]}.

(** Requests: the form as it is, without its name, with a transport that
    has no label, and the edit form. *)
Definition channel_request : Request :=
  {| POST := channel_form; cluster_id := PInt 1 |}.

Definition nameless_request : Request :=
  {| POST := delete "name" channel_form; cluster_id := PInt 1 |}.

Definition amqp_request : Request :=
  {| POST := <["transport" := "amqp"]> channel_form; cluster_id := PInt 1 |}.

Definition channel_edit_request : Request :=
  {| POST := channel_edit_form; cluster_id := PInt 1 |}.

(** The messages built from the two forms. *)
Definition returned {A} (default : A) (r : outcome A) : A :=
  match r with
  | Return a => a
  | Raised _ => default
  end.

Definition amqp_message : gmap string pyval :=
  returned ∅ (_get_edit_create_message sample_common sample_security
                (POST amqp_request) "").

Definition channel_edit_message : gmap string pyval :=
  returned ∅ (_get_edit_create_message sample_common sample_security
                (POST channel_edit_request) "edit-").

End HttpSoap.

(* --------------------------------------------------------------------- *)
(* zato-web-admin: views/http_soap.py, the index view                     *)
(* --------------------------------------------------------------------- *)

Module HttpSoapIndex.
Import HttpSoap.

(** An object with attributes, as the client returns them and as
    [req.zato.cluster] is. *)
Abbreviation Bunch := (gmap string pyval).

(** A request: the query string, [req.zato.cluster_id], [req.zato.cluster]
    and [req.zato.clusters]. *)
Record Request := {
  GET : gmap string string;
  zato_cluster_id : pyval;
  zato_cluster : Bunch;
  zato_clusters : list Bunch
}.

(** The constants of zato.common that the view uses. *)
Record Constants := {
  URL_TYPE_PLAIN_HTTP : string;
  URL_TYPE_SOAP : string;
  SEC_DEF_TYPE_BASIC_AUTH : string;
  SEC_DEF_TYPE_TLS_KEY_CERT : string;
  SEC_DEF_TYPE_APIKEY : string;
  SEC_DEF_TYPE_NTLM : string;
  SEC_DEF_TYPE_WSS : string;
  SEC_DEF_TYPE_NAME : gmap string string;
  DELEGATED_TO_RBAC : string;
  ZATO_SEC_USE_RBAC : string;
  ZATO_NONE : string;
  SOAP_CHANNEL_VERSIONS : list string;
  SOAP_VERSIONS : list string;
  DEFAULT_HTTP_PING_METHOD : pyval;
  DEFAULT_HTTP_POOL_SIZE : pyval;
  MISC_DEFAULT_HTTP_TIMEOUT : pyval
}.

(** [HTTPSOAP(...)]: the positional and the keyword arguments of the
    constructor call of lines 213-221. *)
Record HTTPSOAP := {
  args : list pyval;
  kwargs : list (string * pyval)
}.

(** [v == s] for a string constant [s], and [v in (s1, s2, s3)]. *)
Definition eq_str (v : pyval) (s : string) : bool :=
  match v with
  | PStr s' => String.eqb s' s
  | _ => false
  end.

Definition in3 (v : pyval) (s1 s2 s3 : string) : bool :=
  eq_str v s1 || eq_str v s2 || eq_str v s3.

(** [query in name] on strings. *)
Definition contains (query name : string) : bool :=
  match String.index 0 query name with
  | Some _ => true
  | None => false
  end.

(** The double-quote character, of the markup on line 192. *)
Definition quote : string := String (Ascii.ascii_of_nat 34) EmptyString.

(** [name1.name2...] one after the other. *)
Fixpoint getattrs (item : Bunch) (names : list string) : outcome (list pyval) :=
  match names with
  | [] => Return []
  | name :: names =>
      v ← getattr item name;
      vs ← getattrs item names;
      Return (v :: vs)
  end.

Section View.
Variable common : Common.
Variable constants : Constants.

(** The forms and the page metadata are passed through unchanged. *)
Variable Tls : Type.
Variable Meta : Type.

(** The services behind [req.zato.client.invoke] that return lists. *)
Variable server : string → gmap string pyval → outcome (list Bunch).

(** [get_tls_ca_cert_list(client, cluster)], of zato.admin.web.views: its
    result and the invocations it makes. *)
Variable get_tls_ca_cert_list : Bunch → outcome Tls * list Call.

(** [parse_response_data], of zato.admin.web.views. *)
Variable parse_response_data : list Bunch → outcome (list Bunch * Meta).

(** [sorted(response, key=itemgetter('name'))] *)
Variable sorted_by_name : list Bunch → outcome (list Bunch).

(** [CreateForm(...)] and [EditForm(..., prefix='edit', ...)]: the
    arguments of the constructor. *)
Record Form := {
  form_security : list Bunch;
  form_tls_ca_cert_list : Tls;
  form_cache_list : list (gmap string pyval);
  form_soap_versions : list string;
  form_prefix : option string
}.

(** The context handed to the template, lines 224-242. *)
Record ReturnData := {
  rd_zato_clusters : list Bunch;
  rd_cluster_id : pyval;
  rd_search_form : list Bunch * gmap string string;
  rd_items : list HTTPSOAP;
  rd_create_form : option Form;
  rd_edit_form : option Form;
  rd_connection : pyval;
  rd_transport : pyval;
  rd_connection_label : string;
  rd_connection_label_plural : string;
  rd_transport_label : string;
  rd_colspan : Z;
  rd_default_http_ping_method : pyval;
  rd_default_http_pool_size : pyval;
  rd_default_http_timeout : pyval;
  rd_paginate : bool;
  rd_meta : option Meta
}.

(** What the view returns. *)
Inductive response :=
  | Redirect (url : string)
  | TemplateResponse (template : string) (return_data : ReturnData).

Definition invoke (name : string) (payload : gmap string pyval)
  : web (list Bunch) :=
  λ log, (server name payload, (log ++ [(name, payload)])%list).

(** Lines 144-150: whether the loop skips the definition. *)
Definition skipped (connection transport : pyval) (def_item : Bunch)
  : outcome bool :=
  if eq_str connection "outgoing" then
    plain ← (if eq_str transport (URL_TYPE_PLAIN_HTTP constants) then
               sec_type ← getattr def_item "sec_type";
               Return (negb (in3 sec_type (SEC_DEF_TYPE_BASIC_AUTH constants)
                               (SEC_DEF_TYPE_TLS_KEY_CERT constants)
                               (SEC_DEF_TYPE_APIKEY constants)))
             else Return false);
    if (plain : bool) then Return true
    else if eq_str transport (URL_TYPE_SOAP constants) then
      sec_type ← getattr def_item "sec_type";
      Return (negb (in3 sec_type (SEC_DEF_TYPE_BASIC_AUTH constants)
                      (SEC_DEF_TYPE_NTLM constants)
                      (SEC_DEF_TYPE_WSS constants)))
    else Return false
  else Return false.

(** Lines 143-152: the definitions appended to [_security]. *)
Fixpoint security_loop (connection transport : pyval) (definitions : list Bunch)
  : outcome (list Bunch) :=
  match definitions with
  | [] => Return []
  | def_item :: rest =>
      skip ← skipped connection transport def_item;
      kept ← security_loop connection transport rest;
      Return (if (skip : bool) then kept else def_item :: kept)
  end.

(** Line 165, for the items of one cache type. *)
Fixpoint cache_entries (cache_type : string) (items : list Bunch)
  : outcome (list (gmap string pyval)) :=
  match items with
  | [] => Return []
  | item :: rest =>
      id ← getattr item "id";
      label ← getitem (CACHE_TYPE common) cache_type;
      name ← getattr item "name";
      entries ← cache_entries cache_type rest;
      Return (({[ "id" := id; "name" := PStr (label +:+ "/" +:+ str name) ]}
               : gmap string pyval) :: entries)
  end.

(** Lines 160-165, for one cache type. *)
Definition caches_of (req : Request) (cache_type : string)
  : web (list (gmap string pyval)) :=
  let service_name := "zato.cache." +:+ cache_type +:+ ".get-list" in
  cluster_id ← lift (getattr (zato_cluster req) "id");
  response ← invoke service_name {[ "cluster_id" := cluster_id ]};
  items ← lift (sorted_by_name response);
  lift (cache_entries cache_type items).

(** Lines 185-192. *)
Definition security_name_of (item : Bunch) : outcome pyval :=
  _security_name ← getattr item "security_name";
  if truth _security_name then
    sec_type ← getattr item "sec_type";
    label ← match sec_type with
            | PStr key => getitem (SEC_DEF_TYPE_NAME constants) key
            | other => Raised (KeyError (str other))
            end;
    Return (PStr (label +:+ "<br/>" +:+ str _security_name))
  else
    sec_use_rbac ← getattr item "sec_use_rbac";
    if truth sec_use_rbac then Return (PStr (DELEGATED_TO_RBAC constants))
    else Return (PStr ("<span class=" +:+ quote +:+ "form_hint" +:+ quote
                       +:+ ">---</span>")).

(** Lines 194-201. *)
Definition security_id_of (item : Bunch) : outcome pyval :=
  _security_id ← getattr item "security_id";
  if truth _security_id then
    sec_type ← getattr item "sec_type";
    Return (PStr (str sec_type +:+ "/" +:+ str _security_id))
  else
    sec_use_rbac ← getattr item "sec_use_rbac";
    if truth sec_use_rbac then Return (PStr (ZATO_SEC_USE_RBAC constants))
    else Return (PStr (ZATO_NONE constants)).

(** Lines 203-206. *)
Definition cache_name_of (item : Bunch) : outcome pyval :=
  cache_id ← getattr item "cache_id";
  if truth cache_id then
    cache_type ← getattr item "cache_type";
    label ← match cache_type with
            | PStr key => getitem (CACHE_TYPE common) key
            | other => Raised (KeyError (str other))
            end;
    cache_name ← getattr item "cache_name";
    Return (PStr (label +:+ "/" +:+ str cache_name))
  else Return PNone.

(** Lines 208-211. *)
Definition match_slash_of (item : Bunch) : pyval :=
  match default PNone (item !! "match_slash") with
  | PStr "" => PBool true
  | match_slash => match_slash
  end.

(** Lines 182-222: the object shown for an item of the list, or none when
    the item is skipped. *)
Definition shown (connection transport : pyval) (query : string)
    (item : Bunch) : outcome (option HTTPSOAP) :=
  name ← getattr item "name";
  hit ← match name with
        | PStr name => Return (contains query name)
        | _ => Raised (Failure "TypeError")
        end;
  if negb hit then Return None
  else
    security_name ← security_name_of item;
    security_id ← security_id_of item;
    cache_name ← cache_name_of item;
    let match_slash := match_slash_of item in
    first ← getattrs item ["id"; "name"; "is_active"; "is_internal"];
    second ← getattrs item
      ["host"; "url_path"; "method"; "soap_action"; "soap_version";
       "data_format"; "ping_method"; "pool_size"; "merge_url_params_req";
       "url_params_pri"; "params_pri"; "serialization_type"; "timeout";
       "sec_tls_ca_cert_id"];
    service_id ← getattr item "service_id";
    service_name ← getattr item "service_name";
    has_rbac ← getattr item "has_rbac";
    content_type ← getattr item "content_type";
    cache_id ← getattr item "cache_id";
    cache_type ← getattr item "cache_type";
    cache_expiry ← getattr item "cache_expiry";
    content_encoding ← getattr item "content_encoding";
    Return (Some
      {| args := first ++ [connection; transport] ++ second;
         kwargs :=
           [("service_id", service_id); ("service_name", service_name);
            ("security_id", security_id); ("has_rbac", has_rbac);
            ("security_name", security_name); ("content_type", content_type);
            ("cache_id", cache_id); ("cache_name", cache_name);
            ("cache_type", cache_type); ("cache_expiry", cache_expiry);
            ("content_encoding", content_encoding);
            ("match_slash", match_slash)] |}).

(** Lines 181-222. *)
Fixpoint items_loop (connection transport : pyval) (query : string)
    (data : list Bunch) : outcome (list HTTPSOAP) :=
  match data with
  | [] => Return []
  | item :: rest =>
      object ← shown connection transport query item;
      objects ← items_loop connection transport query rest;
      Return (from_option (λ o, o :: objects) objects object)
  end.

(** Lines 170-177. *)
Definition input_dict (req : Request) (connection transport : pyval)
  : gmap string pyval :=
  {[ "cluster_id" := zato_cluster_id req;
     "connection" := connection;
     "transport" := transport;
     "paginate" := PBool true;
     "cur_page" := get_default (GET req) "cur_page" (PInt 1);
     "query" := get_default (GET req) "query" (PStr "") ]}.

(** Lines 142-222: the items, the two forms and the metadata. *)
Definition listing (req : Request) (connection transport : pyval)
    (query : string)
  : web (list HTTPSOAP * option Form * option Form * option Meta) :=
  if truth (zato_cluster_id req) then
    cluster_id ← lift (getattr (zato_cluster req) "id");
    definitions ← invoke "zato.security.get-list" {[ "cluster_id" := cluster_id ]};
    _security ← lift (security_loop connection transport definitions);
    let _soap_versions :=
      if eq_str connection "channel" then SOAP_CHANNEL_VERSIONS constants
      else SOAP_VERSIONS constants in
    tls_ca_cert_list ←
      (λ log, let '(r, calls) := get_tls_ca_cert_list (zato_cluster req) in
              (r, (log ++ calls)%list));
    builtin ← caches_of req (CACHE_TYPE_BUILTIN common);
    memcached ← caches_of req (CACHE_TYPE_MEMCACHED common);
    let cache_list := (builtin ++ memcached)%list in
    let create_form :=
      {| form_security := _security; form_tls_ca_cert_list := tls_ca_cert_list;
         form_cache_list := cache_list; form_soap_versions := _soap_versions;
         form_prefix := None |} in
    let edit_form :=
      {| form_security := _security; form_tls_ca_cert_list := tls_ca_cert_list;
         form_cache_list := cache_list; form_soap_versions := _soap_versions;
         form_prefix := Some "edit" |} in
    response ← invoke "zato.http-soap.get-list"
                 (input_dict req connection transport);
    parsed ← lift (parse_response_data response);
    items ← lift (items_loop connection transport query parsed.1);
    mret (items, Some create_form, Some edit_form, Some parsed.2)
  else mret ([], None, None, None).

(** [index], lines 120-244, under its method guard. *)
Definition index (req : Request) : web response :=
  let connection := get (GET req) "connection" in
  let transport := get (GET req) "transport" in
  let query := from_option id "" (GET req !! "query") in
  if negb (truth connection && truth transport) then mret (Redirect "/")
  else
    let colspan := if eq_str transport "soap" then 17 + 2 else 17 in
    found ← listing req connection transport query;
    let '(items, create_form, edit_form, meta) := found in
    connection_label ← lift (getitem CONNECTION (str connection));
    connection_label_plural ← lift (getitem CONNECTION_PLURAL (str connection));
    transport_label ← lift (getitem TRANSPORT (str transport));
    mret (TemplateResponse "zato/http_soap/index.html"
            {| rd_zato_clusters := zato_clusters req;
               rd_cluster_id := zato_cluster_id req;
               rd_search_form := (zato_clusters req, GET req);
               rd_items := items;
               rd_create_form := create_form;
               rd_edit_form := edit_form;
               rd_connection := connection;
               rd_transport := transport;
               rd_connection_label := connection_label;
               rd_connection_label_plural := connection_label_plural;
               rd_transport_label := transport_label;
               rd_colspan := colspan;
               rd_default_http_ping_method := DEFAULT_HTTP_PING_METHOD constants;
               rd_default_http_pool_size := DEFAULT_HTTP_POOL_SIZE constants;
               rd_default_http_timeout := MISC_DEFAULT_HTTP_TIMEOUT constants;
               rd_paginate := true;
               rd_meta := meta |}).
(** All the invocations of the view, in the order of the source: the
    security definitions, what [get_tls_ca_cert_list] invokes, the two
    cache lists and the list of objects. *)
Definition all_calls (req : Request) (connection transport cluster_id : pyval)
  : list Call :=
  [("zato.security.get-list", {[ "cluster_id" := cluster_id ]})] ++
  (get_tls_ca_cert_list (zato_cluster req)).2 ++
  [("zato.cache." +:+ CACHE_TYPE_BUILTIN common +:+ ".get-list",
    {[ "cluster_id" := cluster_id ]});
   ("zato.cache." +:+ CACHE_TYPE_MEMCACHED common +:+ ".get-list",
    {[ "cluster_id" := cluster_id ]});
   ("zato.http-soap.get-list", input_dict req connection transport)].
End View.

Arguments Redirect {Tls Meta} url.
Arguments TemplateResponse {Tls Meta} template return_data.

(** Whether the name of an item contains the query, line 182. *)
Definition hit (query : string) (item : Bunch) : bool :=
  match item !! "name" with
  | Some (PStr name) => contains query name
  | _ => false
  end.

(** *** A sample installation *)

Definition sample_constants : Constants :=
  {| URL_TYPE_PLAIN_HTTP := "plain_http";
     URL_TYPE_SOAP := "soap";
     SEC_DEF_TYPE_BASIC_AUTH := "basic_auth";
     SEC_DEF_TYPE_TLS_KEY_CERT := "tls_key_cert";
     SEC_DEF_TYPE_APIKEY := "apikey";
     SEC_DEF_TYPE_NTLM := "ntlm";
     SEC_DEF_TYPE_WSS := "wss";
     SEC_DEF_TYPE_NAME := {[ "basic_auth" := "HTTP Basic Auth" ]};
     DELEGATED_TO_RBAC := "Delegated to RBAC";
     ZATO_SEC_USE_RBAC := "ZATO_SEC_USE_RBAC";
     ZATO_NONE := "ZATO_NONE";
     SOAP_CHANNEL_VERSIONS := ["1.1"];
     SOAP_VERSIONS := ["1.1"; "1.2"];
     DEFAULT_HTTP_PING_METHOD := PStr "HEAD";
     DEFAULT_HTTP_POOL_SIZE := PInt 20;
     MISC_DEFAULT_HTTP_TIMEOUT := PInt 10 |}.

(** An object of the list with the given name, without security and
    without a cache. *)
Definition sample_object (name : string) : Bunch :=
  <["name" := PStr name]>
    (list_to_map
       ((λ attribute, (attribute, PNone)) <$>
        ["id"; "is_active"; "is_internal"; "host"; "url_path"; "method";
         "soap_action"; "soap_version"; "data_format"; "ping_method";
         "pool_size"; "merge_url_params_req"; "url_params_pri"; "params_pri";
         "serialization_type"; "timeout"; "sec_tls_ca_cert_id"; "service_id";
         "service_name"; "has_rbac"; "content_type"; "cache_id"; "cache_type";
         "cache_expiry"; "content_encoding"; "security_name"; "security_id";
         "sec_use_rbac"])).

Definition sample_data : list Bunch :=
  [sample_object "crm.customer"; sample_object "billing.invoice"].

(** What the view shows of them for the query crm. *)
Definition sample_items : list HTTPSOAP :=
  returned []
    (items_loop sample_common sample_constants (PStr "channel")
       (PStr "plain_http") "crm" sample_data).

End HttpSoapIndex.

(* ===================================================================== *)
(* Properties                                                            *)
(* ===================================================================== *)

(* --------------------------------------------------------------------- *)
(* Sums over dicts and loops over their keys                             *)
(* --------------------------------------------------------------------- *)

Section MapSum.
Import CollectNonGDDepth.
Context `{Countable K}.

#[local] Instance sum_Z_perm : Proper ((≡ₚ) ==> (=)) sum_Z.
Proof. induction 1; simpl; lia. Qed.

Lemma map_sum_empty {A} (g : A → Z) : map_sum g (∅ : gmap K A) = 0.
Proof. unfold map_sum. by rewrite map_to_list_empty. Qed.

Lemma map_sum_insert {A} (g : A → Z) (m : gmap K A) i x :
  m !! i = None → map_sum g (<[i:=x]> m) = g x + map_sum g m.
Proof.
  intros Hi. unfold map_sum. by rewrite (map_to_list_insert m i x Hi).
Qed.

Lemma map_sum_zero {A} (g : A → Z) (m : gmap K A) :
  (∀ k a, m !! k = Some a → g a = 0) → map_sum g m = 0.
Proof.
  induction m as [|i x m Hi IH] using map_ind; intros Hg.
  - apply map_sum_empty.
  - rewrite map_sum_insert by done.
    rewrite (Hg i x) by apply lookup_insert_eq.
    rewrite IH; [done|]. intros k a Hk. apply (Hg k).
    rewrite lookup_insert_ne; [done|]. intros ->. congruence.
Qed.

(** Changing the values of a dict key by key to values that count for
    no more does not increase the sum. *)
Lemma map_sum_imap_le {A B} (f : K → A → B) (g1 : B → Z) (g2 : A → Z)
    (m : gmap K A) :
  (∀ k a, m !! k = Some a → g1 (f k a) ≤ g2 a) →
  map_sum g1 (map_imap (λ k a, Some (f k a)) m) ≤ map_sum g2 m.
Proof.
  induction m as [|i x m Hi IH] using map_ind; intros Hg.
  - rewrite map_imap_empty, !map_sum_empty. lia.
  - rewrite (map_imap_insert_Some _ i x m (f i x)) by done.
    rewrite !map_sum_insert; [|done|by rewrite map_lookup_imap, Hi].
    pose proof (Hg i x (lookup_insert_eq m i x)).
    assert (map_sum g1 (map_imap (λ k a, Some (f k a)) m) ≤ map_sum g2 m).
    { apply IH. intros k a Hk. apply Hg.
      rewrite lookup_insert_ne; [done|]. intros ->. congruence. }
    lia.
Qed.

(** A loop over the keys of a dict whose body adds [g] of the value
    found under the key adds up [map_sum g]. *)
Lemma for_each_pairs {A} (l : list (K * A)) (body : K → Z → result Z)
    (g : A → Z) total :
  (∀ k a t, (k, a) ∈ l → body k t = Ok (t + g a)) →
  for_each (l.*1) body total = Ok (total + sum_Z ((λ kv, g kv.2) <$> l)).
Proof.
  revert total. induction l as [|[k a] l IH]; intros total Hbody; simpl.
  - f_equal. lia.
  - rewrite (Hbody k a total) by left. simpl.
    rewrite IH by (intros; apply Hbody; by right). f_equal.
    unfold fmap. lia.
Qed.

Lemma for_each_keys {A} (m : gmap K A) (body : K → Z → result Z)
    (g : A → Z) total :
  (∀ k a t, m !! k = Some a → body k t = Ok (t + g a)) →
  for_each (keys_of m) body total = Ok (total + map_sum g m).
Proof.
  intros Hbody. apply for_each_pairs.
  intros k a t Hin. apply Hbody. by apply elem_of_map_to_list.
Qed.
End MapSum.

(* --------------------------------------------------------------------- *)
(* CollectNonGDDepth: the tally                                          *)
(* --------------------------------------------------------------------- *)

Section Tally.
Import CollectNonGDDepth.

(** The inner loop adds the counts of the process entries flagged
    successful. *)
Lemma pid_loop_sum (sd : gmap Z PidEntry) total :
  map_Forall (λ _ p, pid_well_formed p) sd →
  for_each (keys_of sd) (pid_step sd) total
  = Ok (total + map_sum (λ p, if pid_is_ok p then pid_count p else 0) sd).
Proof.
  intros Hwf. apply for_each_keys. intros pid p t Hp.
  unfold pid_step, getitem. rewrite Hp. simpl.
  specialize (Hwf pid p Hp). unfold pid_well_formed, pid_count in *.
  destruct (pid_is_ok p); [|f_equal; lia].
  destruct Hwf as [d Hd]; [done|]. by rewrite Hd.
Qed.

Lemma node_depth_sum_failed s : is_ok s = false → node_depth_sum s = 0.
Proof.
  intros Hs. unfold node_depth_sum. apply map_sum_zero.
  intros pid p _. by rewrite Hs.
Qed.

Lemma node_depth_sum_ok s sd :
  is_ok s = true → server_data s = Some sd →
  node_depth_sum s = map_sum (λ p, if pid_is_ok p then pid_count p else 0) sd.
Proof.
  intros Hs Hsd. unfold node_depth_sum. rewrite Hs, Hsd. done.
Qed.

(** The outer loop body adds the node's sum. *)
Lemma server_step_sum (data : Data) server_name s total :
  data !! server_name = Some s → server_well_formed s →
  server_step data server_name total = Ok (total + node_depth_sum s).
Proof.
  intros Hs Hwf. unfold server_step, getitem. rewrite Hs. simpl.
  destruct (is_ok s) eqn:Hok.
  - destruct (Hwf Hok) as (sd & Hsd & Hpids).
    rewrite Hsd. simpl. rewrite (node_depth_sum_ok s sd) by done.
    by apply pid_loop_sum.
  - rewrite node_depth_sum_failed by done. f_equal. lia.
Qed.

(** The loops of the handler compute the sum the specification words. *)
Lemma tally_depth_sum (data : Data) :
  well_formed data → tally data = Ok (depth_sum data).
Proof.
  intros Hwf. unfold tally, depth_sum.
  rewrite (for_each_keys data (server_step data) node_depth_sum 0).
  - f_equal.
  - intros server_name s t Hs. apply server_step_sum; [done|].
    by apply (Hwf server_name).
Qed.

(** Turning flags to false keeps a result set well formed, *)
Lemma mark_failed_well_formed servers pids (data : Data) :
  well_formed data → well_formed (mark_failed servers pids data).
Proof.
  intros Hwf server_name s'. unfold mark_failed.
  rewrite map_lookup_imap. destruct (data !! server_name) as [s|] eqn:Hs; [|done].
  simpl. intros [= <-] Hok. simpl in Hok.
  apply andb_true_iff in Hok as [Hok _].
  destruct (Hwf server_name s Hs Hok) as (sd & Hsd & Hpids).
  eexists. simpl. rewrite Hsd. simpl. split; [done|].
  intros pid p'. rewrite map_lookup_imap.
  destruct (sd !! pid) as [p|] eqn:Hp; [|done].
  simpl. intros [= <-] Hpok. simpl in *.
  apply andb_true_iff in Hpok as [Hpok _]. by apply (Hpids pid p).
Qed.

(** and does not increase the sum when no depth is negative. *)
Lemma mark_failed_depth_sum_le servers pids (data : Data) :
  depths_nonneg data →
  depth_sum (mark_failed servers pids data) ≤ depth_sum data.
Proof.
  intros Hnn. unfold depth_sum, mark_failed.
  apply map_sum_imap_le. intros server_name s Hs.
  specialize (Hnn server_name s Hs). simpl in Hnn.
  unfold node_depth_sum. simpl.
  destruct (server_data s) as [sd|]; simpl in *.
  - apply map_sum_imap_le. intros pid p Hp.
    specialize (Hnn pid p Hp). simpl in *.
    change (pid_count (fail_pid pids server_name pid p)) with (pid_count p).
    destruct (is_ok s), (pid_is_ok p),
      (bool_decide (server_name ∉ servers)),
      (bool_decide ((server_name, pid) ∉ pids)); simpl; lia.
  - rewrite !map_sum_empty. lia.
Qed.
End Tally.

Section Collect.
Import CollectNonGDDepth.

Lemma map_sum_delete `{Countable K} {A} (g : A → Z) (m : gmap K A) i x :
  m !! i = Some x → map_sum g m = g x + map_sum g (delete i m).
Proof.
  intros Hi. rewrite <-(insert_delete_id m i x Hi) at 1.
  apply map_sum_insert, lookup_delete_eq.
Qed.

Lemma pid_ok_well_formed n : pid_well_formed (pid_ok n).
Proof. intros _. by eexists. Qed.

Lemma orders_healthy_well_formed : well_formed orders_healthy.
Proof.
  apply map_Forall_insert_2; [|apply map_Forall_singleton];
    intros _; eexists; (split; [done|]).
  - apply map_Forall_insert_2; [|apply map_Forall_singleton];
      apply pid_ok_well_formed.
  - apply map_Forall_singleton, pid_ok_well_formed.
Qed.

Lemma orders_B_failed_well_formed : well_formed orders_B_failed.
Proof.
  apply map_Forall_insert_2; [|by apply map_Forall_singleton].
  intros _; eexists; (split; [done|]).
  apply map_Forall_insert_2; [|apply map_Forall_singleton];
    apply pid_ok_well_formed.
Qed.

Lemma orders_healthy_nonneg : depths_nonneg orders_healthy.
Proof.
  apply map_Forall_insert_2; [|apply map_Forall_singleton]; simpl.
  - apply map_Forall_insert_2; [|apply map_Forall_singleton]; by compute.
  - apply map_Forall_singleton. by compute.
Qed.
End Collect.

Section CollectProperties.
Import CollectNonGDDepth.

(** C1.  For every result set the fan-out returns in which the entries
    flagged successful carry their data, CollectNonGDDepth returns the sum
    of the depth values over the (server, pid) entries whose server-level
    and pid-level flags are both true.  A server entry whose flag is
    false, and a pid entry whose flag is false, can be taken out of the
    result set without changing that total: it contributes zero, and it
    raises nothing whatever it carries. *)
Theorem collect_total_sums_ok_entries
    (invoke_all : Invocation → bool * Data) input call :
  invocation input = Ok call →
  well_formed (invoke_all call).2 →
  let data := (invoke_all call).2 in
  handle invoke_all input = Ok (depth_sum data) ∧
  (∀ server_name s,
     data !! server_name = Some s → is_ok s = false →
     depth_sum data = depth_sum (delete server_name data)) ∧
  (∀ server_name s sd pid p,
     data !! server_name = Some s → server_data s = Some sd →
     sd !! pid = Some p → pid_is_ok p = false →
     depth_sum data =
     depth_sum (<[server_name :=
                    {| is_ok := is_ok s; server_data := Some (delete pid sd) |}]> data)).
Proof.
  intros Hcall Hwf data. repeat split.
  - unfold handle. rewrite Hcall. simpl. by apply tally_depth_sum.
  - intros server_name s Hs Hok. unfold depth_sum.
    rewrite (map_sum_delete _ data server_name s Hs).
    rewrite node_depth_sum_failed by done. lia.
  - intros server_name s sd pid p Hs Hsd Hp Hok. unfold depth_sum.
    rewrite (map_sum_delete _ data server_name s Hs).
    rewrite <-insert_delete_eq.
    rewrite map_sum_insert by apply lookup_delete_eq. f_equal.
    unfold node_depth_sum. rewrite Hsd. simpl.
    rewrite (map_sum_delete _ sd pid p Hp). rewrite Hok, andb_false_r. lia.
Qed.

Lemma collect_total_sums_ok_entries_witness :
  handle (λ _, (true, orders_B_failed)) orders_input
  = Ok (depth_sum orders_B_failed).
Proof.
  refine (proj1 (collect_total_sums_ok_entries (λ _, (true, orders_B_failed))
    orders_input
    {| service := "zato.pubsub.topic.get-non-gd-depth";
       payload := {[ "topic_name" := VStr "orders" ]};
       timeout := 10 |} _ _)).
  - reflexivity.
  - exact orders_B_failed_well_formed.
Defined.

(** C4.  For every well-formed result set in which no depth value is
    negative, turning the success flag of any set of servers and of any
    set of (server, pid) entries to false yields a result set on which the
    tally raises nothing and returns at most what it returns on the
    original; this holds in particular when the original has every flag
    true. *)
Theorem collect_monotone_under_failure
    (servers : gset string) (pids : gset (string * Z)) (data : Data) :
  well_formed data → depths_nonneg data →
  ∃ n m, tally (mark_failed servers pids data) = Ok n ∧
         tally data = Ok m ∧ n ≤ m.
Proof.
  intros Hwf Hnn.
  exists (depth_sum (mark_failed servers pids data)), (depth_sum data).
  split; [|split].
  - by apply tally_depth_sum, mark_failed_well_formed.
  - by apply tally_depth_sum.
  - by apply mark_failed_depth_sum_le.
Qed.

Lemma collect_monotone_under_failure_witness :
  ∃ n m, tally (mark_failed {["B"]} {[("A", 2)]} orders_healthy) = Ok n ∧
         tally orders_healthy = Ok m ∧ n ≤ m.
Proof.
  apply (collect_monotone_under_failure {["B"]} {[("A", 2)]} orders_healthy).
  - exact orders_healthy_well_formed.
  - exact orders_healthy_nonneg.
Defined.

(** C7, as the specification states it, fails: [timeout] is not among the
    inputs of the service, and a request that carries a timeout of 5 is
    fanned out with a timeout of 10. *)
Lemma collect_timeout_not_caller_supplied :
  ("timeout" ∉ input_required) ∧
  orders_input_timeout !! "timeout" = Some (VInt 5) ∧
  ∃ call, invocation orders_input_timeout = Ok call ∧ timeout call ≠ 5.
Proof.
  split; [|split].
  - unfold input_required. intros Hin. apply list_elem_of_singleton in Hin. done.
  - reflexivity.
  - eexists. split; [reflexivity|]. simpl. lia.
Qed.

(** C7, amended.  The service takes the topic name as its only input; for
    every request, whatever else it carries, the whole fan-out is invoked
    for the service 'zato.pubsub.topic.get-non-gd-depth' with that topic
    name and the fixed timeout 10; and on the result set that the fan-out
    returns within that bound, in which the entries flagged successful
    carry their data, the handler returns the partial sum, the sum of the
    depths over the entries with both flags true, rather than failing. *)
Theorem collect_fans_out_with_fixed_timeout
    (invoke_all : Invocation → bool * Data) input topic_name :
  input !! "topic_name" = Some topic_name →
  let call := {| service := "zato.pubsub.topic.get-non-gd-depth";
                 payload := {[ "topic_name" := topic_name ]};
                 timeout := 10 |} in
  let data := (invoke_all call).2 in
  input_required = ["topic_name"] ∧
  invocation input = Ok call ∧
  (well_formed data → handle invoke_all input = Ok (depth_sum data)).
Proof.
  intros Hin call data. split; [done|].
  assert (invocation input = Ok call) as Hcall.
  { unfold invocation, getitem. by rewrite Hin. }
  split; [done|]. intros Hwf. unfold handle. rewrite Hcall. simpl.
  by apply tally_depth_sum.
Qed.

Lemma collect_fans_out_with_fixed_timeout_witness :
  input_required = ["topic_name"] ∧
  invocation orders_input_timeout
  = Ok {| service := "zato.pubsub.topic.get-non-gd-depth";
          payload := {[ "topic_name" := VStr "orders" ]};
          timeout := 10 |} ∧
  handle (λ _, (true, orders_B_failed)) orders_input_timeout
  = Ok (depth_sum orders_B_failed).
Proof.
  destruct (collect_fans_out_with_fixed_timeout (λ _, (true, orders_B_failed))
              orders_input_timeout (VStr "orders")) as (Hin & Hcall & Hsum).
  - reflexivity.
  - split_and!; [exact Hin|exact Hcall|].
    apply Hsum. exact orders_B_failed_well_formed.
Defined.

(** C8.  On the result set where node A reports success with process 1 at
    depth 2 and process 2 at depth 1 and node B reports success at depth
    0, CollectNonGDDepth returns 3; with node B's entry flagged failed it
    returns 3; with the entry of process 2 of node A flagged failed it
    returns 2.  The same holds whether the failed entries lose their data
    or only have their flag turned. *)
Theorem collect_orders_scenario :
  handle (λ _, (true, orders_healthy)) orders_input = Ok 3 ∧
  handle (λ _, (true, orders_B_failed)) orders_input = Ok 3 ∧
  handle (λ _, (true, orders_A2_failed)) orders_input = Ok 2 ∧
  handle (λ _, (true, mark_failed {["B"]} ∅ orders_healthy)) orders_input = Ok 3 ∧
  handle (λ _, (true, mark_failed ∅ {[("A", 2)]} orders_healthy)) orders_input = Ok 2.
Proof. repeat split; vm_compute; reflexivity. Qed.

End CollectProperties.

(* --------------------------------------------------------------------- *)
(* Clear                                                                 *)
(* --------------------------------------------------------------------- *)

Section ClearRun.
Import Clear.
Variable fails : store_op → bool.
Variables cluster_id id : Z.
Variable db : ODB.

(** A call that finds no single topic row does nothing at all. *)
Lemma run_unresolved e :
  one (List.filter (topic_matches cluster_id id) (topics db)) = Raise e →
  run fails cluster_id id db = (Raise e, at_rest db []).
Proof.
  intros Hone.
  unfold run, handle, closing_session, mbind, io_bind, query_topic, at_rest.
  simpl. by rewrite Hone.
Qed.

(** A call that finds its topic, by the step that fails first. *)
Lemma run_resolved topic :
  one (List.filter (topic_matches cluster_id id) (topics db)) = Ok topic →
  let key := "zato.pubsub.publish." +:+ PubSubTopic.name topic in
  run fails cluster_id id db =
    if fails OpDeleteMessages then
      (Raise (StoreError OpDeleteMessages),
       at_rest db [LockAcquired key; LockReleased key])
    else if fails OpDeleteEnqueued then
      (Raise (StoreError OpDeleteEnqueued),
       at_rest db [LockAcquired key; Deleted OpDeleteMessages; LockReleased key])
    else if fails OpCommit then
      (Raise (StoreError OpCommit),
       at_rest db [LockAcquired key; Deleted OpDeleteMessages;
                   Deleted OpDeleteEnqueued; LockReleased key])
    else
      (Ok (),
       at_rest (cleared cluster_id id db)
               [LockAcquired key; Deleted OpDeleteMessages;
                Deleted OpDeleteEnqueued; Committed; LockReleased key]).
Proof.
  intros Hone key.
  unfold run, handle, closing_session, with_lock, mbind, io_bind, query_topic,
    delete_messages, delete_enqueued, commit, emit, at_rest, cleared.
  simpl. rewrite Hone. fold key.
  destruct (fails OpDeleteMessages); [done|]. simpl.
  destruct (fails OpDeleteEnqueued); [done|]. simpl.
  destruct (fails OpCommit); done.
Qed.

Lemma delete_where_none {A} (p : A → bool) rows :
  List.filter p (delete_where p rows) = [].
Proof.
  unfold delete_where. induction rows as [|row rows IH]; [done|]. simpl.
  destruct (p row) eqn:Hp; simpl; [done|]. by rewrite Hp.
Qed.

Lemma delete_where_keeps {A} (p : A → bool) rows :
  List.filter (λ row, negb (p row)) (delete_where p rows)
  = List.filter (λ row, negb (p row)) rows.
Proof.
  unfold delete_where. induction rows as [|row rows IH]; [done|]. simpl.
  destruct (p row) eqn:Hp; simpl; [done|]. rewrite Hp. simpl. by f_equal.
Qed.

Lemma one_cases {A} (rows : list A) :
  (∃ row, rows = [row] ∧ one rows = Ok row) ∨
  (rows = [] ∧ one rows = Raise NoResultFound) ∨
  ((2 ≤ length rows)%nat ∧ one rows = Raise MultipleResultsFound).
Proof.
  destruct rows as [|r1 [|r2 rows]]; simpl; [right; left|left|right; right];
    eauto with lia.
Qed.
End ClearRun.

Section ClearProperties.
Import Clear.

(** C2.  After a call of clear that completes successfully the
    durable-message count and the enqueued-reference count of the topic
    are both zero; after a call that does not (no topic row, or a deletion
    or the commit failing) the durable store is what it was before the
    call.  The call succeeds exactly when the topic resolves to one row
    and no step of the transaction fails. *)
Theorem clear_atomic (fails : store_op → bool) (cluster_id id : Z) (db : ODB) :
  let r := (run fails cluster_id id db).1 in
  let db' := odb (run fails cluster_id id db).2 in
  (r = Ok () →
     message_count db' cluster_id id = 0%nat ∧
     enqueued_count db' cluster_id id = 0%nat) ∧
  (r ≠ Ok () → db' = db) ∧
  (r = Ok () ↔
     (∃ topic, List.filter (topic_matches cluster_id id) (topics db) = [topic]) ∧
     ∀ op, fails op = false).
Proof.
  destruct (one_cases (List.filter (topic_matches cluster_id id) (topics db)))
    as [(topic & Hrows & Hone)|[[Hrows Hone]|[Hrows Hone]]].
  - pose proof (run_resolved fails cluster_id id db topic Hone) as Hrun.
    simpl in Hrun. rewrite Hrun. clear Hrun.
    destruct (fails OpDeleteMessages) eqn:F1;
      [|destruct (fails OpDeleteEnqueued) eqn:F2;
        [|destruct (fails OpCommit) eqn:F3]]; simpl.
    1-3: split; [done|]; split; [done|]; split; [done|];
         intros [_ Hno]; rewrite Hno in *; done.
    split; [|split; [done|]].
    + intros _. unfold message_count, enqueued_count. simpl.
      by rewrite !delete_where_none.
    + split; [|done]. intros _. split; [by exists topic|].
      by intros [].
  - rewrite (run_unresolved fails cluster_id id db _ Hone). simpl.
    split; [done|]. split; [done|]. split; [done|].
    intros [[topic Ht] _]. rewrite Hrows in Ht. done.
  - rewrite (run_unresolved fails cluster_id id db _ Hone). simpl.
    split; [done|]. split; [done|]. split; [done|].
    intros [[topic Ht] _]. rewrite Ht in Hrows. simpl in Hrows. lia.
Qed.

Lemma clear_atomic_witness :
  (run no_failure 1 7 orders_db).1 = Ok () ∧
  message_count (odb (run no_failure 1 7 orders_db).2) 1 7 = 0%nat ∧
  enqueued_count (odb (run no_failure 1 7 orders_db).2) 1 7 = 0%nat ∧
  odb (run commit_fails 1 7 orders_db).2 = orders_db.
Proof.
  pose proof (clear_atomic no_failure 1 7 orders_db) as (Hzero & _ & _).
  pose proof (clear_atomic commit_fails 1 7 orders_db) as (_ & Hsame & _).
  split; [reflexivity|]. split; [apply Hzero; reflexivity|].
  split; [apply Hzero; reflexivity|]. apply Hsame. discriminate.
Defined.

(** C3.  When the topic resolves, clear takes the lock named
    'zato.pubsub.publish.' followed by the topic's name, which is the key
    of the publish path; the deletions and the commit that are carried out
    happen between taking the lock and releasing it, and the release is
    the last event of the call whichever step fails, or none. *)
Theorem clear_lock_scoped (fails : store_op → bool) (cluster_id id : Z)
    (db : ODB) (topic : PubSubTopic.t) :
  List.filter (topic_matches cluster_id id) (topics db) = [topic] →
  let key := "zato.pubsub.publish." +:+ PubSubTopic.name topic in
  let r := (run fails cluster_id id db).1 in
  let w := (run fails cluster_id id db).2 in
  key = publish_lock_key (PubSubTopic.name topic) ∧
  ∃ body,
    log w = LockAcquired key :: (body ++ [LockReleased key])%list ∧
    body `prefix_of` [Deleted OpDeleteMessages; Deleted OpDeleteEnqueued; Committed] ∧
    (r = Ok () ↔
     body = [Deleted OpDeleteMessages; Deleted OpDeleteEnqueued; Committed]).
Proof.
  intros Hrows. simpl. split; [done|].
  assert (one (List.filter (topic_matches cluster_id id) (topics db)) = Ok topic)
    as Hone by by rewrite Hrows.
  pose proof (run_resolved fails cluster_id id db topic Hone) as Hrun.
  simpl in Hrun. rewrite Hrun. clear Hrun.
  destruct (fails OpDeleteMessages);
    [|destruct (fails OpDeleteEnqueued); [|destruct (fails OpCommit)]]; simpl.
  - exists []. split; [done|]. split; [apply prefix_nil|done].
  - exists [Deleted OpDeleteMessages]. split; [done|].
    split; [by eexists|done].
  - exists [Deleted OpDeleteMessages; Deleted OpDeleteEnqueued].
    split; [done|]. split; [by eexists|done].
  - exists [Deleted OpDeleteMessages; Deleted OpDeleteEnqueued; Committed].
    split; [done|]. split; [done|done].
Qed.

Lemma clear_lock_scoped_witness :
  ∃ body,
    log (run commit_fails 1 7 orders_db).2
    = LockAcquired "zato.pubsub.publish.orders"
        :: (body ++ [LockReleased "zato.pubsub.publish.orders"])%list ∧
    body `prefix_of` [Deleted OpDeleteMessages; Deleted OpDeleteEnqueued; Committed] ∧
    ((run commit_fails 1 7 orders_db).1 = Ok () ↔
     body = [Deleted OpDeleteMessages; Deleted OpDeleteEnqueued; Committed]).
Proof.
  refine (proj2 (clear_lock_scoped commit_fails 1 7 orders_db
    {| PubSubTopic.id := 7; PubSubTopic.cluster_id := 1;
       PubSubTopic.name := "orders" |} _)).
  reflexivity.
Defined.

(** C5.  When no topic row matches the input cluster_id and id, clear
    raises NoResultFound (the NotFound of the specification) at once: no
    lock is taken, no deletion is attempted, and the durable store,
    both tables included, is unchanged. *)
Theorem clear_unknown_topic (fails : store_op → bool) (cluster_id id : Z)
    (db : ODB) :
  List.filter (topic_matches cluster_id id) (topics db) = [] →
  run fails cluster_id id db
  = (Raise NoResultFound, {| odb := db; session := db; log := [] |}).
Proof.
  intros Hrows. apply run_unresolved. by rewrite Hrows.
Qed.

Lemma clear_unknown_topic_witness :
  run no_failure 2 7 orders_db
  = (Raise NoResultFound, {| odb := orders_db; session := orders_db; log := [] |}).
Proof.
  apply (clear_unknown_topic no_failure 2 7 orders_db). reflexivity.
Defined.

End ClearProperties.

Section ClearFrame.
Import Clear.

Lemma run_odb (fails : store_op → bool) (cluster_id id : Z) (db : ODB) :
  odb (run fails cluster_id id db).2 = db ∨
  odb (run fails cluster_id id db).2 = cleared cluster_id id db.
Proof.
  destruct (one (List.filter (topic_matches cluster_id id) (topics db)))
    as [topic|e] eqn:Hone.
  - pose proof (run_resolved fails cluster_id id db topic Hone) as Hrun.
    simpl in Hrun. rewrite Hrun.
    destruct (fails OpDeleteMessages), (fails OpDeleteEnqueued),
      (fails OpCommit); simpl; auto.
  - rewrite (run_unresolved fails cluster_id id db e Hone). by left.
Qed.

Lemma message_matches_false cluster_id id row :
  message_matches cluster_id id row = false ↔
  PubSubMessage.cluster_id row ≠ cluster_id ∨ PubSubMessage.topic_id row ≠ id.
Proof. unfold message_matches. rewrite andb_false_iff, !Z.eqb_neq. done. Qed.

Lemma enqueued_matches_false cluster_id id row :
  enqueued_matches cluster_id id row = false ↔
  PubSubEndpointEnqueuedMessage.cluster_id row ≠ cluster_id ∨
  PubSubEndpointEnqueuedMessage.topic_id row ≠ id.
Proof. unfold enqueued_matches. rewrite andb_false_iff, !Z.eqb_neq. done. Qed.

Lemma delete_where_In {A} (p : A → bool) rows row :
  In row (delete_where p rows) ↔ In row rows ∧ p row = false.
Proof.
  unfold delete_where. rewrite filter_In, negb_true_iff. done.
Qed.

(** C9.  Clear changes the durable store only by deleting rows of the
    durable-message and enqueued-reference tables whose cluster_id and
    topic_id equal the input cluster_id and id: the topic table is
    unchanged, no row is added, and the rows of either table that belong
    to another topic or another cluster are the same rows, in the same
    order, before and after. *)
Theorem clear_frame (fails : store_op → bool) (cluster_id id : Z) (db : ODB) :
  let db' := odb (run fails cluster_id id db).2 in
  let other_message row := negb (message_matches cluster_id id row) in
  let other_enqueued row := negb (enqueued_matches cluster_id id row) in
  topics db' = topics db ∧
  List.filter other_message (messages db') = List.filter other_message (messages db) ∧
  List.filter other_enqueued (enqueued db') = List.filter other_enqueued (enqueued db) ∧
  (∀ row, In row (messages db') → In row (messages db)) ∧
  (∀ row, In row (enqueued db') → In row (enqueued db)) ∧
  (∀ row,
     PubSubMessage.cluster_id row ≠ cluster_id ∨ PubSubMessage.topic_id row ≠ id →
     (In row (messages db') ↔ In row (messages db))) ∧
  (∀ row,
     PubSubEndpointEnqueuedMessage.cluster_id row ≠ cluster_id ∨
     PubSubEndpointEnqueuedMessage.topic_id row ≠ id →
     (In row (enqueued db') ↔ In row (enqueued db))).
Proof.
  simpl. destruct (run_odb fails cluster_id id db) as [-> | ->].
  - split_and!; done.
  - unfold cleared. simpl. rewrite !delete_where_keeps.
    split_and!; try done.
    + intros row Hin. by apply delete_where_In in Hin as [Hin _].
    + intros row Hin. by apply delete_where_In in Hin as [Hin _].
    + intros row Hother. rewrite delete_where_In.
      apply message_matches_false in Hother. tauto.
    + intros row Hother. rewrite delete_where_In.
      apply enqueued_matches_false in Hother. tauto.
Qed.

Lemma clear_frame_witness :
  messages (odb (run no_failure 1 7 orders_db).2)
  = [ {| PubSubMessage.id := 2; PubSubMessage.cluster_id := 1;
         PubSubMessage.topic_id := 8 |} ] ∧
  (In {| PubSubMessage.id := 2; PubSubMessage.cluster_id := 1;
         PubSubMessage.topic_id := 8 |}
      (messages (odb (run no_failure 1 7 orders_db).2)) ↔
   In {| PubSubMessage.id := 2; PubSubMessage.cluster_id := 1;
         PubSubMessage.topic_id := 8 |} (messages orders_db)).
Proof.
  split; [reflexivity|].
  apply (clear_frame no_failure 1 7 orders_db). simpl. right. lia.
Defined.

End ClearFrame.

(* --------------------------------------------------------------------- *)
(* GetInRAMMessageList                                                   *)
(* --------------------------------------------------------------------- *)

Section Grouping.
Import GetInRAMMessageList.

Lemma sub_keys_of_cons t' k rows t :
  sub_keys_of ((t', k) :: rows) t
  = if decide (t' = t) then k :: sub_keys_of rows t else sub_keys_of rows t.
Proof.
  unfold sub_keys_of. rewrite filter_cons. simpl. by case_decide.
Qed.

(** The dict built by the grouping loop, key by key. *)
Lemma foldl_group_lookup (m : gmap Z (list string)) rows t :
  foldl group_step m rows !! t
  = match sub_keys_of rows t with
    | [] => m !! t
    | ks => Some (default [] (m !! t) ++ ks)%list
    end.
Proof.
  revert m. induction rows as [|[t' k] rows IH]; intros m; [done|].
  simpl. rewrite IH, sub_keys_of_cons. case_decide as Ht.
  - subst t'. rewrite lookup_insert_eq. simpl.
    destruct (sub_keys_of rows t); [done|]. by rewrite <-app_assoc.
  - by rewrite lookup_insert_ne.
Qed.

Lemma group_lookup rows t :
  group rows !! t
  = match sub_keys_of rows t with
    | [] => None
    | ks => Some ks
    end.
Proof.
  unfold group. rewrite foldl_group_lookup, lookup_empty.
  by destruct (sub_keys_of rows t).
Qed.

Lemma elem_of_sub_keys_of rows t k : k ∈ sub_keys_of rows t ↔ (t, k) ∈ rows.
Proof.
  unfold sub_keys_of. rewrite list_elem_of_fmap. split.
  - intros ([t' k'] & -> & Hin). apply list_elem_of_filter in Hin as [Ht Hin].
    simpl in *. by subst.
  - intros Hin. exists (t, k). split; [done|]. by apply list_elem_of_filter.
Qed.

(** The keys of the dict are inserted once each, *)
Lemma foldl_insert_key_NoDup topic_ids rows :
  NoDup topic_ids → NoDup (foldl insert_key topic_ids rows).
Proof.
  revert topic_ids. induction rows as [|[t k] rows IH]; intros topic_ids Hnd; [done|].
  simpl. apply IH. unfold insert_key. simpl. case_decide as Hin; [done|].
  apply NoDup_app. split_and!; [done| |apply NoDup_singleton].
  intros x Hx ->%list_elem_of_singleton. done.
Qed.

(** and they are the topic ids of the rows. *)
Lemma elem_of_foldl_insert_key topic_ids rows t :
  t ∈ foldl insert_key topic_ids rows ↔ t ∈ topic_ids ∨ t ∈ rows.*1.
Proof.
  revert topic_ids. induction rows as [|[t' k] rows IH]; intros topic_ids; simpl.
  - rewrite elem_of_nil. tauto.
  - rewrite IH. unfold insert_key. simpl. rewrite elem_of_cons.
    case_decide as Hin.
    + split; [tauto|]. intros [?|[->|?]]; tauto.
    + rewrite elem_of_app, list_elem_of_singleton. tauto.
Qed.

Lemma insertion_order_NoDup rows : NoDup (insertion_order rows).
Proof. apply foldl_insert_key_NoDup, NoDup_nil_2. Qed.

Lemma elem_of_insertion_order rows t :
  t ∈ insertion_order rows ↔ is_Some (group rows !! t).
Proof.
  unfold insertion_order. rewrite elem_of_foldl_insert_key, elem_of_nil.
  rewrite group_lookup. split.
  - intros [[]|Hin]. apply list_elem_of_fmap in Hin as ([t' k] & -> & Hin).
    apply elem_of_sub_keys_of in Hin. simpl.
    destruct (sub_keys_of rows t'); [by apply elem_of_nil in Hin|by eexists].
  - intros Hsome. right. destruct (sub_keys_of rows t) as [|k ks] eqn:Hks.
    + by destruct Hsome.
    + assert (k ∈ sub_keys_of rows t) as Hk by (rewrite Hks; left).
      apply elem_of_sub_keys_of in Hk. apply list_elem_of_fmap. by exists (t, k).
Qed.

Lemma topic_sub_keys_items_keys rows :
  (topic_sub_keys_items rows).*1 = insertion_order rows.
Proof.
  unfold topic_sub_keys_items. rewrite <-list_fmap_compose.
  apply list_fmap_id.
Qed.

Lemma elem_of_topic_sub_keys_items rows t ks :
  (t, ks) ∈ topic_sub_keys_items rows ↔ group rows !! t = Some ks.
Proof.
  unfold topic_sub_keys_items. rewrite list_elem_of_fmap. split.
  - intros (t' & [= -> ->] & Hin). apply elem_of_insertion_order in Hin as [ks Hks].
    by rewrite Hks.
  - intros Hks. exists t. rewrite Hks. split; [done|].
    apply elem_of_insertion_order. by eexists.
Qed.

(** The loop of lines 216-222 meets every item of the dict once. *)
Lemma topic_sub_keys_items_perm rows :
  topic_sub_keys_items rows ≡ₚ map_to_list (group rows).
Proof.
  apply NoDup_Permutation.
  - apply (NoDup_fmap_1 fst). rewrite topic_sub_keys_items_keys.
    apply insertion_order_NoDup.
  - apply NoDup_map_to_list.
  - intros [t ks]. rewrite elem_of_topic_sub_keys_items.
    by rewrite elem_of_map_to_list.
Qed.

Lemma group_item_elem rows t ks k :
  (t, ks) ∈ topic_sub_keys_items rows → k ∈ ks → (t, k) ∈ rows.
Proof.
  intros Hin Hk. apply elem_of_topic_sub_keys_items in Hin.
  rewrite group_lookup in Hin. apply elem_of_sub_keys_of.
  destruct (sub_keys_of rows t); [done|]. by injection Hin as ->.
Qed.
End Grouping.

Section Draining.
Import GetInRAMMessageList.
Variable retrieve : Backlog → Z → list string → SubKeyMessages * Backlog.

(** Every entry of the merged mapping comes from [out] or from one of
    the drains. *)
Lemma drain_loop_lookup items (out : SubKeyMessages) backlog k v :
  (drain_loop retrieve items out backlog).1 !! k = Some v →
  out !! k = Some v ∨
  ∃ data, data ∈ drain_results retrieve items backlog ∧ data !! k = Some v.
Proof.
  revert out backlog. induction items as [|[t ks] items IH]; intros out backlog.
  - simpl. by left.
  - simpl. destruct (retrieve backlog t ks) as [data backlog'] eqn:Hr.
    intros Hk. apply IH in Hk as [Hk|(d & Hd & Hk)].
    + apply lookup_union_Some_raw in Hk as [Hk|[_ Hk]].
      * right. exists data. split; [left|done].
      * by left.
    + right. exists d. split; [by right|done].
Qed.

(** The merged mapping has an entry for the keys of [out] and for the
    keys of the drains, and for no other key. *)
Lemma drain_loop_dom items (out : SubKeyMessages) backlog k :
  is_Some ((drain_loop retrieve items out backlog).1 !! k) ↔
  is_Some (out !! k) ∨
  ∃ data, data ∈ drain_results retrieve items backlog ∧ is_Some (data !! k).
Proof.
  revert out backlog. induction items as [|[t ks] items IH]; intros out backlog.
  - simpl. split; [by left|]. intros [?|(d & Hd & _)]; [done|].
    by apply elem_of_nil in Hd.
  - simpl. destruct (retrieve backlog t ks) as [data backlog'] eqn:Hr.
    rewrite IH, lookup_union_is_Some. split.
    + intros [[Hk|Hk]|(d & Hd & Hk)].
      * right. exists data. split; [left|done].
      * by left.
      * right. exists d. split; [by right|done].
    + intros [Hk|(d & Hd & Hk)]; [left; by right|].
      apply elem_of_cons in Hd as [->|Hd]; [left; by left|].
      right. by exists d.
Qed.

(** A mapping that is part of [out], and that no later drain has a key
    in common with, is part of the merged mapping. *)
Lemma drain_loop_keeps items (out m : SubKeyMessages) backlog :
  m ⊆ out →
  (∀ data, data ∈ drain_results retrieve items backlog → data ##ₘ m) →
  m ⊆ (drain_loop retrieve items out backlog).1.
Proof.
  revert out backlog. induction items as [|[t ks] items IH];
    intros out backlog Hsub Hdisj; [done|].
  simpl in *. destruct (retrieve backlog t ks) as [data backlog'] eqn:Hr.
  apply IH.
  - assert (data ##ₘ m) as Hd by (apply Hdisj; left).
    apply map_subseteq_spec. intros k v Hk.
    rewrite lookup_union_r.
    + by apply (lookup_weaken m out).
    + by apply (map_disjoint_Some_r data m k v).
  - intros d Hin. apply Hdisj. by right.
Qed.

(** Each drain was made for one of the items. *)
Lemma drain_results_item items backlog data :
  data ∈ drain_results retrieve items backlog →
  ∃ t ks b, (t, ks) ∈ items ∧ data = (retrieve b t ks).1.
Proof.
  revert backlog. induction items as [|[t ks] items IH]; intros backlog; simpl.
  - by intros ?%elem_of_nil.
  - destruct (retrieve backlog t ks) as [d backlog'] eqn:Hr.
    intros [->|Hin]%elem_of_cons.
    + exists t, ks, backlog. split; [left|]. by rewrite Hr.
    + destruct (IH _ Hin) as (t' & ks' & b & Hitem & ->).
      exists t', ks', b. split; [by right|done].
Qed.

(** There is one drain for each item. *)
Lemma drain_results_length items backlog :
  length (drain_results retrieve items backlog) = length items.
Proof.
  revert backlog. induction items as [|[t ks] items IH]; intros backlog; [done|].
  simpl. destruct (retrieve backlog t ks) as [d backlog'] eqn:Hr.
  simpl. by rewrite IH.
Qed.

(** The first drain finds the backlog the handler was called on, *)
Lemma drain_stores_head items backlog :
  head (drain_stores retrieve items backlog) = Some backlog.
Proof.
  destruct items as [|[t ks] items]; [done|].
  simpl. by destruct (retrieve backlog t ks).
Qed.

(** each drain finds the backlog the drain before it left, and its
    result is what the drain returns on that backlog, *)
Lemma drain_stores_lookup items backlog i t ks :
  items !! i = Some (t, ks) →
  ∃ store,
    drain_stores retrieve items backlog !! i = Some store ∧
    drain_results retrieve items backlog !! i = Some (retrieve store t ks).1 ∧
    drain_stores retrieve items backlog !! S i = Some (retrieve store t ks).2.
Proof.
  revert backlog i. induction items as [|[t' ks'] items IH]; intros backlog i; [done|].
  destruct i as [|i]; simpl.
  - intros [= -> ->]. exists backlog.
    destruct (retrieve backlog t ks) as [d backlog'] eqn:Hr. simpl.
    split_and!; [done..|]. rewrite <-head_lookup. apply drain_stores_head.
  - intros Hi. destruct (retrieve backlog t' ks') as [d backlog'] eqn:Hr.
    apply (IH backlog' i Hi).
Qed.

(** and the backlog the last drain leaves is the backlog after the
    loop. *)
Lemma drain_stores_last items (out : SubKeyMessages) backlog :
  last (drain_stores retrieve items backlog)
  = Some (drain_loop retrieve items out backlog).2.
Proof.
  revert out backlog. induction items as [|[t ks] items IH]; intros out backlog; [done|].
  simpl. destruct (retrieve backlog t ks) as [d backlog'] eqn:Hr.
  rewrite last_cons. by rewrite (IH (d ∪ out) backlog').
Qed.

Hypothesis retrieve_keys : returns_given_keys retrieve.

(** When the groups of distinct items share no key, no drain's result is
    lost or overwritten in the merge. *)
Lemma drain_loop_results items (out : SubKeyMessages) backlog :
  NoDup items.*1 →
  (∀ t1 ks1 t2 ks2 k,
     (t1, ks1) ∈ items → (t2, ks2) ∈ items → k ∈ ks1 → k ∈ ks2 → t1 = t2) →
  ∀ data, data ∈ drain_results retrieve items backlog →
          data ⊆ (drain_loop retrieve items out backlog).1.
Proof.
  revert out backlog. induction items as [|[t ks] items IH];
    intros out backlog Hnodup Hkeys data; simpl.
  - by intros ?%elem_of_nil.
  - destruct (retrieve backlog t ks) as [d backlog'] eqn:Hr.
    apply NoDup_cons in Hnodup as [Hnotin Hnodup].
    intros [->|Hin]%elem_of_cons.
    + apply drain_loop_keeps; [apply map_union_subseteq_l|].
      intros d' Hd'. apply map_disjoint_spec. intros k v' v Hk' Hk.
      destruct (drain_results_item _ _ _ Hd') as (t' & ks' & b & Hitem & ->).
      apply Hnotin. apply list_elem_of_fmap. exists (t', ks'). split; [|done].
      simpl. apply (Hkeys t ks t' ks' k); [left|by right| |].
      * apply (retrieve_keys backlog t ks k). rewrite Hr. by eexists.
      * apply (retrieve_keys b t' ks' k). by eexists.
    + apply IH; [done| |done].
      intros t1 ks1 t2 ks2 k H1 H2. apply Hkeys; by right.
Qed.
End Draining.

Section DeliveryBacklogFacts.
Import GetInRAMMessageList.

(** The drain modelled from the specification returns entries for the
    keys it was given only. *)
Lemma delivery_backlog_returns_given_keys :
  returns_given_keys DeliveryBacklog.retrieve_messages_by_sub_keys.
Proof.
  intros backlog t ks k [v Hk]. simpl in Hk.
  apply elem_of_list_to_map_2 in Hk.
  apply list_elem_of_fmap in Hk as (k' & [= -> _] & Hin). done.
Qed.

Lemma sample_lookup_one_topic cluster_id sub_keys :
  one_topic_per_sub_key (DeliveryBacklog.sample_lookup cluster_id sub_keys).
Proof.
  intros t1 t2 k H1%list_elem_of_In H2%list_elem_of_In.
  unfold DeliveryBacklog.sample_lookup in *.
  apply filter_In in H1 as [H1 _]. apply filter_In in H2 as [H2 _].
  simpl in H1, H2.
  destruct H1 as [H1|[H1|[H1|[]]]], H2 as [H2|[H2|[H2|[]]]]; congruence.
Qed.
End DeliveryBacklogFacts.

Section GetInRAMProperties.
Import GetInRAMMessageList.

(** C6.  For every sub_key_list, with [rows] the (topic, sub_key) pairs
    the lookup resolves it to.  Grouping: the handler groups the keys by
    topic, each topic with its keys in the order of the rows, and its loop
    meets each group once.  Draining: the first group is drained from the
    backlog the handler was called on, each group is drained from the
    backlog that the drain before it left, and the backlog that the last
    drain leaves is the backlog after the call.  Merging: the mapping
    returned has an entry for a subscriber key exactly when one of the
    drains has, and each of its entries is an entry of one of the drains;
    and when every subscriber key belongs to at most one topic, and a
    drain returns entries for the keys it was given only, every drain's
    result is part of the returned mapping, so that no entry is lost or
    overwritten by the merge. *)
Theorem get_in_ram_merges_drains
    (get_topics_by_sub_keys : Z → list string → list (Z * string))
    (retrieve : Backlog → Z → list string → SubKeyMessages * Backlog)
    (cluster_id : Z) (sub_key_list : list string) (backlog : Backlog) :
  let rows := get_topics_by_sub_keys cluster_id sub_key_list in
  let items := topic_sub_keys_items rows in
  let stores := drain_stores retrieve items backlog in
  let results := drain_results retrieve items backlog in
  let answer := handle get_topics_by_sub_keys retrieve cluster_id sub_key_list backlog in
  ((∀ topic_id,
      group rows !! topic_id
      = match sub_keys_of rows topic_id with
        | [] => None
        | sub_keys => Some sub_keys
        end) ∧
   items ≡ₚ map_to_list (group rows)) ∧
  (length results = length items ∧
   head stores = Some backlog ∧
   (∀ i topic_id sub_keys,
      items !! i = Some (topic_id, sub_keys) →
      ∃ store,
        stores !! i = Some store ∧
        results !! i = Some (retrieve store topic_id sub_keys).1 ∧
        stores !! S i = Some (retrieve store topic_id sub_keys).2) ∧
   last stores = Some answer.2) ∧
  ((∀ sub_key,
      is_Some (answer.1 !! sub_key) ↔
      ∃ data, data ∈ results ∧ is_Some (data !! sub_key)) ∧
   (∀ sub_key msgs,
      answer.1 !! sub_key = Some msgs →
      ∃ data, data ∈ results ∧ data !! sub_key = Some msgs) ∧
   (returns_given_keys retrieve → one_topic_per_sub_key rows →
    ∀ data, data ∈ results → data ⊆ answer.1)).
Proof.
  simpl. split_and!.
  - intros t. apply group_lookup.
  - apply topic_sub_keys_items_perm.
  - apply drain_results_length.
  - apply drain_stores_head.
  - intros i t ks. apply drain_stores_lookup.
  - unfold handle. apply drain_stores_last.
  - intros k. unfold handle. rewrite drain_loop_dom, lookup_empty.
    split; [|by right]. intros [[? [=]]|Hk]; done.
  - intros k v Hk. unfold handle in Hk.
    apply drain_loop_lookup in Hk as [Hk|Hk]; [|done].
    by rewrite lookup_empty in Hk.
  - intros Hkeys Hone data Hin. unfold handle.
    apply drain_loop_results; [done| | |done].
    + rewrite topic_sub_keys_items_keys. apply insertion_order_NoDup.
    + intros t1 ks1 t2 ks2 k H1 H2 Hk1 Hk2.
      apply (Hone t1 t2 k); by eapply group_item_elem.
Qed.

Lemma get_in_ram_merges_drains_witness :
  Forall
    (λ data,
       data ⊆ (handle DeliveryBacklog.sample_lookup
                 DeliveryBacklog.retrieve_messages_by_sub_keys 1
                 ["sk.a"; "sk.b"; "sk.c"] DeliveryBacklog.sample_backlog).1)
    (drain_results DeliveryBacklog.retrieve_messages_by_sub_keys
       (topic_sub_keys_items (DeliveryBacklog.sample_lookup 1
                                ["sk.a"; "sk.b"; "sk.c"]))
       DeliveryBacklog.sample_backlog).
Proof.
  apply Forall_forall.
  refine (proj2 (proj2 (proj2 (proj2 (get_in_ram_merges_drains
    DeliveryBacklog.sample_lookup DeliveryBacklog.retrieve_messages_by_sub_keys
    1 ["sk.a"; "sk.b"; "sk.c"] DeliveryBacklog.sample_backlog)))) _ _).
  - exact delivery_backlog_returns_given_keys.
  - exact (sample_lookup_one_topic 1 ["sk.a"; "sk.b"; "sk.c"]).
Defined.

(** C10.  When the lookup yields no (topic, sub_key) pair for the input
    sub_key_list, the handler returns the empty mapping, makes no call to
    the drain, and leaves the local backlog as it was. *)
Theorem get_in_ram_nothing_resolved
    (get_topics_by_sub_keys : Z → list string → list (Z * string))
    (retrieve : Backlog → Z → list string → SubKeyMessages * Backlog)
    (cluster_id : Z) (sub_key_list : list string) (backlog : Backlog) :
  get_topics_by_sub_keys cluster_id sub_key_list = [] →
  handle get_topics_by_sub_keys retrieve cluster_id sub_key_list backlog
  = (∅, backlog) ∧
  drain_results retrieve
    (topic_sub_keys_items (get_topics_by_sub_keys cluster_id sub_key_list)) backlog
  = [].
Proof.
  intros Hrows. unfold handle. rewrite Hrows. done.
Qed.

Lemma get_in_ram_nothing_resolved_witness :
  handle DeliveryBacklog.sample_lookup
    DeliveryBacklog.retrieve_messages_by_sub_keys 1 ["sk.unknown"]
    DeliveryBacklog.sample_backlog
  = (∅, DeliveryBacklog.sample_backlog).
Proof.
  refine (proj1 (get_in_ram_nothing_resolved DeliveryBacklog.sample_lookup
    DeliveryBacklog.retrieve_messages_by_sub_keys 1 ["sk.unknown"]
    DeliveryBacklog.sample_backlog _)).
  vm_compute. reflexivity.
Defined.

End GetInRAMProperties.

(* ===================================================================== *)
(* Further properties of the services                                    *)
(* ===================================================================== *)

(* --------------------------------------------------------------------- *)
(* CollectNonGDDepth: failure, iteration order, disjoint result sets      *)
(* --------------------------------------------------------------------- *)

Section Loops.
Context {K : Type}.
Implicit Types (body : K → Z → result Z) (keys : list K).

(** A loop that returns went through every key without an exception. *)
Lemma for_each_Ok_inv keys body total n k :
  for_each keys body total = Ok n → k ∈ keys → ∃ t t', body k t = Ok t'.
Proof.
  revert total. induction keys as [|k' keys IH]; intros total Hrun Hin.
  - by apply elem_of_nil in Hin.
  - simpl in Hrun. destruct (body k' total) as [t'|e] eqn:Hb; [|done].
    apply elem_of_cons in Hin as [->|Hin]; [by eauto|by eapply IH].
Qed.

(** An exception of the loop is an exception of its body. *)
Lemma for_each_Raise_inv keys body total e :
  for_each keys body total = Raise e → ∃ k t, k ∈ keys ∧ body k t = Raise e.
Proof.
  revert total. induction keys as [|k keys IH]; intros total Hrun; [done|].
  simpl in Hrun. destruct (body k total) as [t'|e'] eqn:Hb.
  - destruct (IH _ Hrun) as (k' & t & Hin & Hk'). exists k', t. split; [by right|done].
  - injection Hrun as ->. exists k, total. split; [left|done].
Qed.

(** A loop over steady bodies is steady. *)
Lemma for_each_steady keys body :
  (∀ k, k ∈ keys → steady body k) →
  (∃ h, ∀ t, for_each keys body t = Ok (t + h)) ∨
  (∃ e, ∀ t, for_each keys body t = Raise e).
Proof.
  induction keys as [|k keys IH]; intros Hst.
  - left. exists 0. intros t. simpl. f_equal. lia.
  - destruct (Hst k) as [[h Hk]|[e Hk]]; [left| |].
    + destruct IH as [[h' Hrest]|[e Hrest]]; [intros; apply Hst; by right| |].
      * left. exists (h + h'). intros t. simpl. rewrite Hk. simpl.
        rewrite Hrest. f_equal. lia.
      * right. exists e. intros t. simpl. rewrite Hk. simpl. apply Hrest.
    + right. exists e. intros t. simpl. by rewrite Hk.
Qed.

(** A loop over steady bodies that returns, returns the same total over
    any rearrangement of its keys. *)
Lemma for_each_perm keys keys' body total n :
  keys ≡ₚ keys' → (∀ k, k ∈ keys → steady body k) →
  for_each keys body total = Ok n → for_each keys' body total = Ok n.
Proof.
  intros Hperm. revert total.
  induction Hperm as [|k l l' Hperm IH|k1 k2 l|l l' l'' H1 IH1 H2 IH2];
    intros total Hst.
  - done.
  - simpl. destruct (body k total); simpl; [|done].
    apply IH. intros; apply Hst; by right.
  - simpl.
    destruct (Hst k1) as [[h1 Hk1]|[e1 Hk1]]; [right; left| |];
      (destruct (Hst k2) as [[h2 Hk2]|[e2 Hk2]]; [left| |]);
      rewrite ?Hk1, ?Hk2; simpl; rewrite ?Hk1, ?Hk2; simpl; try done.
    by replace (total + h2 + h1) with (total + h1 + h2) by lia.
  - intros Hrun. apply IH2; [|by apply IH1].
    intros k Hk. apply Hst. by rewrite H1.
Qed.

(** Over any rearrangement of its keys, a loop over steady bodies ends
    alike. *)
Lemma for_each_alike keys keys' body total :
  keys ≡ₚ keys' → (∀ k, k ∈ keys → steady body k) →
  alike (for_each keys body total) (for_each keys' body total).
Proof.
  intros Hperm Hst.
  destruct (for_each keys body total) as [n|e] eqn:Hrun.
  - by rewrite (for_each_perm keys keys' body total n).
  - destruct (for_each keys' body total) as [n'|e'] eqn:Hrun'; [|done].
    rewrite (for_each_perm keys' keys body total n') in Hrun; [done..| |done].
    intros k Hk. apply Hst. by rewrite Hperm.
Qed.
End Loops.

Section TallyFailure.
Import CollectNonGDDepth.

Lemma pid_step_steady (sd : gmap Z PidEntry) pid : steady (pid_step sd) pid.
Proof.
  unfold steady, pid_step, getitem.
  destruct (sd !! pid) as [p|]; simpl; [|right; by eexists].
  destruct (pid_is_ok p).
  - destruct (pid_data p) as [d|]; simpl; [left; by eexists|right; by eexists].
  - left. exists 0. intros t. f_equal. lia.
Qed.

Lemma server_step_steady (data : Data) server_name :
  steady (server_step data) server_name.
Proof.
  unfold steady, server_step, getitem.
  destruct (data !! server_name) as [s|]; simpl; [|right; by eexists].
  destruct (is_ok s).
  - destruct (server_data s) as [sd|]; simpl; [|right; by eexists].
    apply for_each_steady. intros pid _. apply pid_step_steady.
  - left. exists 0. intros t. f_equal. lia.
Qed.

Lemma elem_of_keys_of `{Countable K} {A} (m : gmap K A) k :
  k ∈ keys_of m → is_Some (m !! k).
Proof.
  intros ([k' a] & -> & Hin)%list_elem_of_fmap.
  apply elem_of_map_to_list in Hin. by eexists.
Qed.

(** At a pid of the dict, the inner loop body raises for a missing
    pid_data only; *)
Lemma pid_step_Raise (sd : gmap Z PidEntry) pid t e :
  pid ∈ keys_of sd → pid_step sd pid t = Raise e → e = KeyError "pid_data".
Proof.
  intros [p Hp]%elem_of_keys_of. unfold pid_step, getitem. rewrite Hp. simpl.
  destruct (pid_is_ok p); [|done].
  destruct (pid_data p); simpl; congruence.
Qed.

(** at a server name of the dict, the outer loop body raises for a
    missing server_data or for a missing pid_data only. *)
Lemma server_step_Raise (data : Data) server_name t e :
  server_name ∈ keys_of data → server_step data server_name t = Raise e →
  e = KeyError "server_data" ∨ e = KeyError "pid_data".
Proof.
  intros [s Hs]%elem_of_keys_of. unfold server_step, getitem. rewrite Hs. simpl.
  destruct (is_ok s); [|done].
  destruct (server_data s) as [sd|]; simpl; [|left; congruence].
  intros (pid & t' & Hin & Hstep)%for_each_Raise_inv.
  right. by eapply pid_step_Raise.
Qed.

Lemma pid_step_Ok_well_formed (sd : gmap Z PidEntry) pid p t t' :
  sd !! pid = Some p → pid_step sd pid t = Ok t' → pid_well_formed p.
Proof.
  intros Hp. unfold pid_step, getitem, pid_well_formed. rewrite Hp. simpl.
  intros Hrun Hok. rewrite Hok in Hrun. by destruct (pid_data p).
Qed.

Lemma server_step_Ok_well_formed (data : Data) server_name s t t' :
  data !! server_name = Some s → server_step data server_name t = Ok t' →
  server_well_formed s.
Proof.
  intros Hs. unfold server_step, getitem, server_well_formed. rewrite Hs. simpl.
  intros Hrun Hok. rewrite Hok in Hrun.
  destruct (server_data s) as [sd|]; [|done]. simpl in Hrun.
  exists sd. split; [done|]. intros pid p Hp.
  destruct (for_each_Ok_inv _ _ _ _ pid Hrun) as (u & u' & Hstep).
  - apply list_elem_of_fmap. exists (pid, p). split; [done|].
    by apply elem_of_map_to_list.
  - by eapply pid_step_Ok_well_formed.
Qed.

Lemma tally_Ok_well_formed (data : Data) n : tally data = Ok n → well_formed data.
Proof.
  intros Hrun server_name s Hs.
  destruct (for_each_Ok_inv _ _ _ _ server_name Hrun) as (t & t' & Hstep).
  - apply list_elem_of_fmap. exists (server_name, s). split; [done|].
    by apply elem_of_map_to_list.
  - by eapply server_step_Ok_well_formed.
Qed.

Lemma map_sum_union `{Countable K} {A} (g : A → Z) (m1 m2 : gmap K A) :
  m1 ##ₘ m2 → map_sum g (m1 ∪ m2) = map_sum g m1 + map_sum g m2.
Proof.
  induction m1 as [|i x m1 Hi IH] using map_ind; intros Hdisj.
  - rewrite (left_id_L ∅ (∪)), map_sum_empty. lia.
  - apply map_disjoint_insert_l in Hdisj as [Hi2 Hdisj].
    rewrite <-insert_union_l.
    rewrite !map_sum_insert; [|done|by apply lookup_union_None].
    rewrite IH by done. lia.
Qed.
End TallyFailure.

Section CollectFurther.
Import CollectNonGDDepth.

(** X1.  The tally returns exactly on the result sets in which every entry
    flagged successful carries its data, and then returns the sum over the
    entries with both flags true; on any other result set it raises
    KeyError, for the key 'server_data' or the key 'pid_data', and it
    raises nothing else. *)
Theorem tally_returns_iff_well_formed (data : Data) :
  (∀ n, tally data = Ok n ↔ well_formed data ∧ n = depth_sum data) ∧
  (∀ e, tally data = Raise e →
        e = KeyError "server_data" ∨ e = KeyError "pid_data").
Proof.
  split.
  - intros n. split.
    + intros Hrun. pose proof (tally_Ok_well_formed data n Hrun) as Hwf.
      split; [done|]. rewrite (tally_depth_sum data Hwf) in Hrun. congruence.
    + intros [Hwf ->]. by apply tally_depth_sum.
  - intros e Hrun. unfold tally in Hrun.
    apply for_each_Raise_inv in Hrun as (server_name & t & Hin & Hstep).
    by eapply server_step_Raise.
Qed.

(** X2.  The order in which the two loops go through the keys of their
    dicts does not change the total, nor whether the loops return: over
    any two arrangements of the server names of a result set, and of the
    pids of a server, the loops return the same total, or raise in both.
    The exception raised is not determined by the result set alone: on
    [two_faults], going through node A first raises
    KeyError('server_data'), and going through node B first raises
    KeyError('pid_data'). *)
Theorem tally_order_independent (data : Data) (servers servers' : list string)
    (sd : gmap Z PidEntry) (pids pids' : list Z) (total : Z) :
  servers ≡ₚ keys_of data → servers' ≡ₚ keys_of data →
  pids ≡ₚ keys_of sd → pids' ≡ₚ keys_of sd →
  alike (for_each servers (server_step data) 0) (tally data) ∧
  alike (for_each servers (server_step data) 0)
        (for_each servers' (server_step data) 0) ∧
  alike (for_each pids (pid_step sd) total)
        (for_each pids' (pid_step sd) total) ∧
  for_each ["A"; "B"] (server_step two_faults) 0 = Raise (KeyError "server_data") ∧
  for_each ["B"; "A"] (server_step two_faults) 0 = Raise (KeyError "pid_data").
Proof.
  intros Hs Hs' Hp Hp'. split_and!.
  - unfold tally. apply for_each_alike; [done|].
    intros k _. apply server_step_steady.
  - apply for_each_alike; [by rewrite Hs, Hs'|].
    intros k _. apply server_step_steady.
  - apply for_each_alike; [by rewrite Hp, Hp'|].
    intros k _. apply pid_step_steady.
  - reflexivity.
  - reflexivity.
Qed.

Lemma tally_order_independent_witness :
  alike (for_each ["B"; "A"] (server_step orders_A2_failed) 0)
        (for_each ["A"; "B"] (server_step orders_A2_failed) 0) ∧
  alike (for_each [2; 1] (pid_step {[ 1 := pid_ok 2; 2 := pid_ok 1 ]}) 0)
        (for_each [1; 2] (pid_step {[ 1 := pid_ok 2; 2 := pid_ok 1 ]}) 0).
Proof.
  destruct (tally_order_independent orders_A2_failed ["B"; "A"] ["A"; "B"]
              {[ 1 := pid_ok 2; 2 := pid_ok 1 ]} [2; 1] [1; 2] 0)
    as (_ & Hservers & Hpids & _).
  - vm_compute. first [reflexivity | apply Permutation_swap].
  - vm_compute. first [reflexivity | apply Permutation_swap].
  - vm_compute. first [reflexivity | apply Permutation_swap].
  - vm_compute. first [reflexivity | apply Permutation_swap].
  - by split.
Defined.

(** X3.  The tally of the union of two result sets that share no server
    name is the sum of their tallies. *)
Theorem tally_disjoint_union (data1 data2 : Data) (n1 n2 : Z) :
  data1 ##ₘ data2 → tally data1 = Ok n1 → tally data2 = Ok n2 →
  tally (data1 ∪ data2) = Ok (n1 + n2).
Proof.
  intros Hdisj H1 H2.
  pose proof (tally_Ok_well_formed data1 n1 H1) as Hwf1.
  pose proof (tally_Ok_well_formed data2 n2 H2) as Hwf2.
  rewrite (tally_depth_sum data1 Hwf1) in H1. injection H1 as <-.
  rewrite (tally_depth_sum data2 Hwf2) in H2. injection H2 as <-.
  rewrite tally_depth_sum by by apply map_Forall_union.
  unfold depth_sum. by rewrite map_sum_union.
Qed.

Lemma tally_disjoint_union_witness :
  tally (({[ "A" := server_ok {[ 1 := pid_ok 2; 2 := pid_ok 1 ]} ]} : Data)
         ∪ {[ "B" := server_ok {[ 1 := pid_ok 0 ]} ]}) = Ok (3 + 0).
Proof.
  apply (tally_disjoint_union
           {[ "A" := server_ok {[ 1 := pid_ok 2; 2 := pid_ok 1 ]} ]}
           {[ "B" := server_ok {[ 1 := pid_ok 0 ]} ]} 3 0).
  - apply map_disjoint_singleton_l. reflexivity.
  - reflexivity.
  - reflexivity.
Defined.

End CollectFurther.

(* --------------------------------------------------------------------- *)
(* Clear: repeated and successive calls                                  *)
(* --------------------------------------------------------------------- *)

Section ClearFurther.
Import Clear.

Lemma delete_where_idemp {A} (p : A → bool) rows :
  delete_where p (delete_where p rows) = delete_where p rows.
Proof.
  unfold delete_where. induction rows as [|row rows IH]; [done|]. simpl.
  destruct (p row) eqn:Hp; simpl; [done|]. rewrite Hp. simpl. by f_equal.
Qed.

Lemma delete_where_comm {A} (p q : A → bool) rows :
  delete_where p (delete_where q rows) = delete_where q (delete_where p rows).
Proof.
  unfold delete_where. induction rows as [|row rows IH]; [done|]. simpl.
  destruct (p row) eqn:Hp, (q row) eqn:Hq; simpl; rewrite ?Hp, ?Hq; simpl;
    by rewrite ?IH.
Qed.

Lemma delete_where_length {A} (p : A → bool) rows :
  (length (delete_where p rows) + length (List.filter p rows))%nat = length rows.
Proof.
  unfold delete_where. induction rows as [|row rows IH]; [done|]. simpl.
  destruct (p row); simpl; lia.
Qed.

(** The store after a run in which no step fails. *)
Lemma run_no_failure_odb (fails : store_op → bool) cluster_id id db :
  (∀ op, fails op = false) →
  run fails cluster_id id db =
    match one (List.filter (topic_matches cluster_id id) (topics db)) with
    | Ok topic =>
        let key := "zato.pubsub.publish." +:+ PubSubTopic.name topic in
        (Ok (),
         at_rest (cleared cluster_id id db)
           [LockAcquired key; Deleted OpDeleteMessages;
            Deleted OpDeleteEnqueued; Committed; LockReleased key])
    | Raise e => (Raise e, at_rest db [])
    end.
Proof.
  intros Hno.
  destruct (one (List.filter (topic_matches cluster_id id) (topics db)))
    as [topic|e] eqn:Hone.
  - pose proof (run_resolved fails cluster_id id db topic Hone) as Hrun.
    simpl in Hrun. by rewrite !Hno in Hrun.
  - by apply run_unresolved.
Qed.

Lemma run_Ok_resolved (fails : store_op → bool) cluster_id id db :
  (run fails cluster_id id db).1 = Ok () →
  (∃ topic, one (List.filter (topic_matches cluster_id id) (topics db)) = Ok topic) ∧
  odb (run fails cluster_id id db).2 = cleared cluster_id id db.
Proof.
  destruct (one (List.filter (topic_matches cluster_id id) (topics db)))
    as [topic|e] eqn:Hone.
  - pose proof (run_resolved fails cluster_id id db topic Hone) as Hrun.
    simpl in Hrun. rewrite Hrun.
    destruct (fails OpDeleteMessages), (fails OpDeleteEnqueued),
      (fails OpCommit); simpl; try done. by eauto.
  - by rewrite (run_unresolved fails cluster_id id db e Hone).
Qed.

(** X4.  Clear is idempotent: after a call that succeeded, a second call
    for the same topic in which no step fails succeeds as well and leaves
    the durable store exactly as the first call left it. *)
Theorem clear_idempotent (fails fails' : store_op → bool) (cluster_id id : Z)
    (db : ODB) :
  (run fails cluster_id id db).1 = Ok () →
  (∀ op, fails' op = false) →
  let db' := odb (run fails cluster_id id db).2 in
  (run fails' cluster_id id db').1 = Ok () ∧
  odb (run fails' cluster_id id db').2 = db'.
Proof.
  intros Hok Hno. simpl.
  destruct (run_Ok_resolved fails cluster_id id db Hok) as [[topic Hone] ->].
  rewrite (run_no_failure_odb fails' cluster_id id _ Hno).
  unfold cleared at 1 3. simpl. rewrite Hone. simpl.
  unfold cleared. simpl. by rewrite !delete_where_idemp.
Qed.

Lemma clear_idempotent_witness :
  (run no_failure 1 7 (odb (run no_failure 1 7 orders_db).2)).1 = Ok () ∧
  odb (run no_failure 1 7 (odb (run no_failure 1 7 orders_db).2)).2
  = odb (run no_failure 1 7 orders_db).2.
Proof.
  apply (clear_idempotent no_failure no_failure 1 7 orders_db).
  - reflexivity.
  - intros op. reflexivity.
Defined.

(** X5.  Clearing two topics one after the other leaves the same durable
    store in either order, when no step of either call fails; this holds
    also when one of the topics, or both, do not resolve. *)
Theorem clear_commutes (fails : store_op → bool) (cluster_id1 id1 cluster_id2 id2 : Z)
    (db : ODB) :
  (∀ op, fails op = false) →
  odb (run fails cluster_id2 id2 (odb (run fails cluster_id1 id1 db).2)).2
  = odb (run fails cluster_id1 id1 (odb (run fails cluster_id2 id2 db).2)).2.
Proof.
  intros Hno.
  rewrite (run_no_failure_odb fails cluster_id1 id1 db Hno).
  rewrite (run_no_failure_odb fails cluster_id2 id2 db Hno).
  destruct (one (List.filter (topic_matches cluster_id1 id1) (topics db)))
    as [topic1|e1] eqn:Hone1;
  destruct (one (List.filter (topic_matches cluster_id2 id2) (topics db)))
    as [topic2|e2] eqn:Hone2; simpl;
  rewrite !(run_no_failure_odb fails _ _ _ Hno); simpl;
  rewrite ?Hone1, ?Hone2; simpl; try done.
  unfold cleared. simpl. f_equal; apply delete_where_comm.
Qed.

Lemma clear_commutes_witness :
  odb (run no_failure 1 8 (odb (run no_failure 1 7 orders_db).2)).2
  = odb (run no_failure 1 7 (odb (run no_failure 1 8 orders_db).2)).2.
Proof.
  apply (clear_commutes no_failure 1 7 1 8 orders_db).
  intros op. reflexivity.
Defined.

(** X6.  A call of clear that succeeds removes from each of the two tables
    as many rows as the topic had in it: the rows left and the rows the
    topic had add up to the rows there were. *)
Theorem clear_row_count (fails : store_op → bool) (cluster_id id : Z) (db : ODB) :
  (run fails cluster_id id db).1 = Ok () →
  let db' := odb (run fails cluster_id id db).2 in
  (length (messages db') + message_count db cluster_id id)%nat
  = length (messages db) ∧
  (length (enqueued db') + enqueued_count db cluster_id id)%nat
  = length (enqueued db).
Proof.
  intros Hok. simpl.
  destruct (run_Ok_resolved fails cluster_id id db Hok) as [_ ->].
  unfold cleared, message_count, enqueued_count. simpl.
  split; apply delete_where_length.
Qed.

Lemma clear_row_count_witness :
  (length (messages (odb (run no_failure 1 7 orders_db).2))
   + message_count orders_db 1 7)%nat = length (messages orders_db) ∧
  (length (enqueued (odb (run no_failure 1 7 orders_db).2))
   + enqueued_count orders_db 1 7)%nat = length (enqueued orders_db).
Proof.
  apply (clear_row_count no_failure 1 7 orders_db). reflexivity.
Defined.

End ClearFurther.

(* --------------------------------------------------------------------- *)
(* GetInRAMMessageList: overlapping drains, and the groups                *)
(* --------------------------------------------------------------------- *)

Section MergeOrder.
Import GetInRAMMessageList.
Variable retrieve : Backlog → Z → list string → SubKeyMessages * Backlog.

(** Drains that have no entry for a key leave what [out] has for it. *)
Lemma drain_loop_other_key items (out : SubKeyMessages) backlog k :
  (∀ d, d ∈ drain_results retrieve items backlog → d !! k = None) →
  (drain_loop retrieve items out backlog).1 !! k = out !! k.
Proof.
  revert out backlog. induction items as [|[t ks] items IH];
    intros out backlog Hnone; [done|].
  simpl in *. destruct (retrieve backlog t ks) as [data backlog'] eqn:Hr.
  rewrite IH by (intros d Hd; apply Hnone; by right).
  apply lookup_union_r. apply Hnone. left.
Qed.

(** The entry of the last drain that has the key is the one returned. *)
Lemma drain_loop_last items (out : SubKeyMessages) backlog pre data post k v :
  drain_results retrieve items backlog = (pre ++ data :: post)%list →
  data !! k = Some v →
  (∀ d, d ∈ post → d !! k = None) →
  (drain_loop retrieve items out backlog).1 !! k = Some v.
Proof.
  revert out backlog pre. induction items as [|[t ks] items IH];
    intros out backlog pre Hres Hk Hpost; simpl in *.
  - by destruct pre.
  - destruct (retrieve backlog t ks) as [d backlog'] eqn:Hr.
    destruct pre as [|p pre]; simpl in Hres; injection Hres as -> Hres.
    + rewrite drain_loop_other_key by (rewrite Hres; done).
      by apply lookup_union_Some_l.
    + by eapply IH.
Qed.
End MergeOrder.

Section GroupCount.
Import GetInRAMMessageList.

(** One step of the grouping loop adds the row's key to the keys held. *)
Lemma group_step_keys (m : gmap Z (list string)) t k :
  concat (map_to_list (group_step m (t, k))).*2
  ≡ₚ k :: concat (map_to_list m).*2.
Proof.
  simpl. destruct (m !! t) as [l|] eqn:Hm; simpl.
  - rewrite <-(insert_delete_id m t l Hm) at 2.
    rewrite <-insert_delete_eq.
    rewrite !map_to_list_insert by apply lookup_delete_eq.
    simpl. rewrite <-app_assoc. simpl.
    by rewrite <-Permutation_middle.
  - by rewrite map_to_list_insert.
Qed.

Lemma foldl_group_keys (m : gmap Z (list string)) rows :
  concat (map_to_list (foldl group_step m rows)).*2
  ≡ₚ (concat (map_to_list m).*2 ++ rows.*2)%list.
Proof.
  revert m. induction rows as [|[t k] rows IH]; intros m.
  - simpl. by rewrite app_nil_r.
  - change (foldl group_step m ((t, k) :: rows))
      with (foldl group_step (group_step m (t, k)) rows).
    rewrite IH, group_step_keys, fmap_cons. simpl.
    by rewrite <-Permutation_middle.
Qed.
End GroupCount.

Section GetInRAMFurther.
Import GetInRAMMessageList.



(** X8.  The grouping loop neither drops nor duplicates a key: no group is
    empty, a key is in the group of a topic exactly when the lookup
    returned it for that topic, and the groups together hold the keys of
    the rows, each as many times as it occurs in them. *)
Theorem group_partitions_rows (rows : list (Z * string)) :
  (∀ topic_id sub_keys, group rows !! topic_id = Some sub_keys → sub_keys ≠ []) ∧
  (∀ topic_id sub_key,
     (topic_id, sub_key) ∈ rows ↔
     ∃ sub_keys, group rows !! topic_id = Some sub_keys ∧ sub_key ∈ sub_keys) ∧
  concat (map_to_list (group rows)).*2 ≡ₚ rows.*2.
Proof.
  split_and!.
  - intros t ks. rewrite group_lookup.
    destruct (sub_keys_of rows t); [done|]. by intros [= <-].
  - intros t k. rewrite <-elem_of_sub_keys_of. rewrite group_lookup. split.
    + intros Hk. exists (sub_keys_of rows t). split; [|done].
      destruct (sub_keys_of rows t); [by apply elem_of_nil in Hk|done].
    + intros (ks & Hks & Hk). by destruct (sub_keys_of rows t); simplify_eq.
  - unfold group. rewrite foldl_group_keys. by rewrite map_to_list_empty.
Qed.

End GetInRAMFurther.

(* --------------------------------------------------------------------- *)
(* response_hook and GetPublisherList                                    *)
(* --------------------------------------------------------------------- *)

Section HookLoop.
Import CollectNonGDDepth ResponseHook.
Variable invoke :
  string → gmap string value → result (gmap string (gmap string value)).
Variable get_gd_depth_topic : Z → Z → result field.
Variable datetime_from_ms : field → result field.

Abbreviation hook_item := (hook_item invoke get_gd_depth_topic datetime_from_ms).
Abbreviation hook_loop := (hook_loop invoke get_gd_depth_topic datetime_from_ms).

(** What one pass of the loop body never changes. *)
Lemma hook_item_keeps cluster_id item :
  let item' := (hook_item cluster_id item).1 in
  name item' = name item ∧ id item' = id item ∧
  (truthy (last_pub_time item) = false → last_pub_time item' = last_pub_time item).
Proof.
  unfold ResponseHook.hook_item. simpl.
  destruct (collect_depth invoke item); [|done]. simpl.
  destruct (get_gd_depth_topic cluster_id (id item)); [|done]. simpl.
  destruct (truthy (last_pub_time item)) eqn:Ht; [|done].
  destruct (datetime_from_ms (last_pub_time item)); done.
Qed.

Lemma hook_loop_keeps cluster_id payload :
  Forall2 (λ a b, name b = name a ∧ id b = id a ∧
                  (truthy (last_pub_time a) = false →
                   last_pub_time b = last_pub_time a))
          payload (hook_loop cluster_id payload).1.
Proof.
  induction payload as [|item rest IH]; simpl; [constructor|].
  pose proof (hook_item_keeps cluster_id item) as Hitem. simpl in Hitem.
  destruct (hook_item cluster_id item) as [item' [[]|e]]; simpl in *.
  - destruct (hook_loop cluster_id rest) as [rest' r]. simpl in *.
    by constructor.
  - constructor; [done|]. apply Forall2_same_length_lookup_2; [done|].
    intros i a b Ha Hb. by simplify_eq.
Qed.

(** A loop that returns has run its body on every item. *)
Lemma hook_loop_Ok cluster_id payload payload' :
  hook_loop cluster_id payload = (payload', Ok ()) →
  Forall2 (λ a b, hook_item cluster_id a = (b, Ok ())) payload payload'.
Proof.
  revert payload'. induction payload as [|item rest IH]; intros payload'; simpl.
  - intros [= <-]. constructor.
  - destruct (hook_item cluster_id item) as [item' [[]|e]] eqn:Hitem; [|done].
    destruct (hook_loop cluster_id rest) as [rest' r] eqn:Hrest.
    intros [= <- ->]. constructor; [done|]. by apply IH.
Qed.

(** A loop that raises has run its body with success on the items before
    the one that raised, and has not touched the items after it. *)
Lemma hook_loop_Raise cluster_id payload payload' e :
  hook_loop cluster_id payload = (payload', Raise e) →
  ∃ before item rest before' item',
    payload = (before ++ item :: rest)%list ∧
    payload' = (before' ++ item' :: rest)%list ∧
    Forall2 (λ a b, hook_item cluster_id a = (b, Ok ())) before before' ∧
    hook_item cluster_id item = (item', Raise e).
Proof.
  revert payload'. induction payload as [|item rest IH]; intros payload'; simpl.
  - done.
  - destruct (hook_item cluster_id item) as [item' [[]|e']] eqn:Hitem.
    + destruct (hook_loop cluster_id rest) as [rest' r] eqn:Hrest.
      intros [= <- ->].
      destruct (IH rest' eq_refl)
        as (before & it & rest0 & before' & it' & -> & -> & Hbefore & Hit).
      exists (item :: before), it, rest0, (item' :: before'), it'.
      split_and!; try done; by constructor.
    + intros [= <- <-]. exists [], item, rest, [], item'.
      split_and!; try done; constructor.
Qed.
End HookLoop.

Section HookProperties.
Import CollectNonGDDepth ResponseHook.

(** X9.  Whatever the services it calls do, response_hook keeps the items
    of the payload in number and order with their names and ids, and
    leaves a last_pub_time that is None or 0 as it is; for a service type
    other than get_list it changes nothing and raises nothing. *)
Theorem response_hook_keeps_items
    (invoke : string → gmap string value → result (gmap string (gmap string value)))
    (get_gd_depth_topic : Z → Z → result field)
    (datetime_from_ms : field → result field)
    (service_type : string) (cluster_id : Z) (payload : list Item) :
  let after :=
    response_hook invoke get_gd_depth_topic datetime_from_ms
      service_type cluster_id payload in
  Forall2 (λ a b, name b = name a ∧ id b = id a ∧
                  (truthy (last_pub_time a) = false →
                   last_pub_time b = last_pub_time a))
          payload after.1 ∧
  (service_type ≠ "get_list" → after = (payload, Ok ())).
Proof.
  simpl. unfold response_hook.
  destruct (String.eqb_spec service_type "get_list") as [->|Hne].
  - split; [apply hook_loop_keeps|done].
  - split; [|done]. simpl. apply Forall2_same_length_lookup_2; [done|].
    intros i a b Ha Hb. by simplify_eq.
Qed.

(** X10.  When response_hook raises, the items before the one at which a
    call raised have been updated, that item holds what was assigned to
    it before the exception, and the items after it are untouched: the
    payload is left partly updated. *)
Theorem response_hook_stops_at_first_failure
    (invoke : string → gmap string value → result (gmap string (gmap string value)))
    (get_gd_depth_topic : Z → Z → result field)
    (datetime_from_ms : field → result field)
    (cluster_id : Z) (payload payload' : list Item) (e : exn) :
  response_hook invoke get_gd_depth_topic datetime_from_ms
    "get_list" cluster_id payload = (payload', Raise e) →
  ∃ before item rest before' item',
    payload = (before ++ item :: rest)%list ∧
    payload' = (before' ++ item' :: rest)%list ∧
    Forall2 (λ a b, hook_item invoke get_gd_depth_topic datetime_from_ms
                      cluster_id a = (b, Ok ())) before before' ∧
    hook_item invoke get_gd_depth_topic datetime_from_ms cluster_id item
    = (item', Raise e).
Proof.
  unfold response_hook. simpl. apply hook_loop_Raise.
Qed.

Lemma response_hook_stops_at_first_failure_witness :
  ∃ before item rest before' item',
    [orders_item; invoices_item; orders_item] = (before ++ item :: rest)%list ∧
    [ {| name := "orders"; id := 7;
         last_pub_time := Some (VStr "2017-07-14T02:40:00");
         current_depth_non_gd := Some (VInt 3);
         current_depth_gd := Some (VInt 2) |};
      invoices_item; orders_item ] = (before' ++ item' :: rest)%list ∧
    Forall2 (λ a b, hook_item (invoke_collect orders_only) sample_gd_depth
                      sample_datetime 1 a = (b, Ok ())) before before' ∧
    hook_item (invoke_collect orders_only) sample_gd_depth sample_datetime 1 item
    = (item', Raise (KeyError "server_data")).
Proof.
  apply (response_hook_stops_at_first_failure (invoke_collect orders_only)
           sample_gd_depth sample_datetime 1
           [orders_item; invoices_item; orders_item]).
  vm_compute. reflexivity.
Defined.

(** The depth the hook reads from CollectNonGDDepth is the sum over the
    result set of a fan-out for the item's own name. *)
Lemma collect_depth_invoke_collect (invoke_all : Invocation → bool * Data)
    (item : Item) (depth : field) :
  collect_depth (invoke_collect invoke_all) item = Ok depth →
  let data := (invoke_all (fan_out_call (name item))).2 in
  well_formed data ∧ depth = Some (VInt (depth_sum data)).
Proof.
  unfold collect_depth, invoke_collect, CollectNonGDDepth.handle, invocation,
    getitem, fan_out_call.
  simpl. rewrite lookup_singleton_eq. simpl.
  set (data := (invoke_all _).2).
  destruct (tally data) as [n|e] eqn:Htally; simpl; [|done].
  rewrite lookup_singleton_eq. simpl. rewrite lookup_singleton_eq. simpl.
  intros [= <-].
  pose proof (tally_Ok_well_formed data n Htally) as Hwf. split; [done|].
  rewrite (tally_depth_sum data Hwf) in Htally. by injection Htally as <-.
Qed.

(** X11.  When response_hook returns for get_list with CollectNonGDDepth
    behind [self.invoke], every item's current_depth_non_gd is the sum,
    over the entries with both flags true, of the result set that the
    fan-out returned for a call with that item's name and the timeout 10;
    each of these result sets was well formed. *)
Theorem response_hook_lists_collected_depths
    (invoke_all : Invocation → bool * Data)
    (get_gd_depth_topic : Z → Z → result field)
    (datetime_from_ms : field → result field)
    (cluster_id : Z) (payload payload' : list Item) :
  response_hook (invoke_collect invoke_all) get_gd_depth_topic datetime_from_ms
    "get_list" cluster_id payload = (payload', Ok ()) →
  Forall2 (λ a b,
             let data := (invoke_all (fan_out_call (name a))).2 in
             well_formed data ∧
             current_depth_non_gd b = Some (VInt (depth_sum data)) ∧
             get_gd_depth_topic cluster_id (id a) = Ok (current_depth_gd b))
          payload payload'.
Proof.
  unfold response_hook. simpl. intros Hloop. apply hook_loop_Ok in Hloop.
  eapply Forall2_impl; [exact Hloop|]. intros a b Hitem. simpl in *.
  unfold hook_item in Hitem.
  destruct (collect_depth (invoke_collect invoke_all) a) as [depth|] eqn:Hd;
    [|done].
  apply collect_depth_invoke_collect in Hd as [Hwf ->]. simpl in Hitem.
  destruct (get_gd_depth_topic cluster_id (id a)) as [gd|]; [|done].
  simpl in Hitem.
  destruct (truthy (last_pub_time a));
    [destruct (datetime_from_ms (last_pub_time a)); [|done]|];
    injection Hitem as <-; done.
Qed.

Lemma response_hook_lists_collected_depths_witness :
  Forall2 (λ a b,
             let data := (orders_only (fan_out_call (name a))).2 in
             well_formed data ∧
             current_depth_non_gd b = Some (VInt (depth_sum data)) ∧
             sample_gd_depth 1 (id a) = Ok (current_depth_gd b))
          [orders_item]
          [ {| name := "orders"; id := 7;
               last_pub_time := Some (VStr "2017-07-14T02:40:00");
               current_depth_non_gd := Some (VInt 3);
               current_depth_gd := Some (VInt 2) |} ].
Proof.
  apply (response_hook_lists_collected_depths orders_only sample_gd_depth
           sample_datetime 1 [orders_item]).
  vm_compute. reflexivity.
Defined.

End HookProperties.

Section PublisherProperties.
Import CollectNonGDDepth GetPublisherList.

Lemma convert_Ok (datetime_from_ms : field → result field) item item' :
  convert datetime_from_ms item = Ok item' →
  name item' = name item ∧
  datetime_from_ms (last_pub_time item) = Ok (last_pub_time item') ∧
  last_seen item' = last_pub_time item'.
Proof.
  unfold convert.
  destruct (datetime_from_ms (last_pub_time item)) as [t|] eqn:Ht;
    simpl; [|done].
  rewrite Ht. simpl. by intros [= <-].
Qed.

Lemma convert_Raise (datetime_from_ms : field → result field) item e :
  convert datetime_from_ms item = Raise e →
  datetime_from_ms (last_pub_time item) = Raise e.
Proof.
  unfold convert.
  destruct (datetime_from_ms (last_pub_time item)) as [t|] eqn:Ht;
    simpl; [|by intros [= <-]].
  rewrite Ht. done.
Qed.

(** X12.  GetPublisherList returns one row for each row of the query, in
    order and under the same name, with last_pub_time converted and
    last_seen equal to it; the conversion is applied to every row, also
    to a last_pub_time that is None, and when it raises for a row the
    handler raises the same exception and the payload is left as it
    was. *)
Theorem publishers_last_seen_is_last_pub_time
    (datetime_from_ms : field → result field)
    (last_data payload : list Publisher) :
  match handle datetime_from_ms last_data payload with
  | (payload', Ok _) =>
      Forall2 (λ a b, name b = name a ∧
                      datetime_from_ms (last_pub_time a) = Ok (last_pub_time b) ∧
                      last_seen b = last_pub_time b)
              last_data payload'
  | (payload', Raise e) =>
      payload' = payload ∧
      ∃ item, item ∈ last_data ∧ datetime_from_ms (last_pub_time item) = Raise e
  end.
Proof.
  unfold handle.
  destruct (convert_all datetime_from_ms last_data) as [response|e] eqn:Hall.
  - revert response Hall. induction last_data as [|item rest IH];
      intros response; simpl.
    + intros [= <-]. constructor.
    + destruct (convert datetime_from_ms item) as [item'|] eqn:Hitem; [|done].
      simpl. destruct (convert_all datetime_from_ms rest) as [rest'|]; [|done].
      simpl. intros [= <-]. constructor; [by apply convert_Ok|by apply IH].
  - split; [done|]. revert Hall. induction last_data as [|item rest IH]; simpl.
    + done.
    + destruct (convert datetime_from_ms item) as [item'|e'] eqn:Hitem; simpl.
      * destruct (convert_all datetime_from_ms rest) as [rest'|e'']; [done|].
        simpl. intros [= ->]. destruct (IH eq_refl) as (it & Hin & Hit).
        exists it. split; [by right|done].
      * intros [= ->]. exists item. split; [left|by apply convert_Raise].
Qed.

End PublisherProperties.

(* --------------------------------------------------------------------- *)
(* zato-web-admin: the HTTP/SOAP views                                   *)
(* --------------------------------------------------------------------- *)

Section MessageProperties.
Import HttpSoap.
Variable common : Common.
Variable get_security_id_from_select : gmap string string → string → outcome pyval.

Abbreviation message_of :=
  (_get_edit_create_message common get_security_id_from_select).

(** The form lacks a key that is subscripted: KeyError for the first one. *)
Lemma message_of_missing (params : gmap string string) (prefix : string)
    (security_id : pyval) (i : nat) (key : string) :
  get_security_id_from_select params prefix = Return security_id →
  list_find (λ key, params !! key = None) (required_keys prefix) = Some (i, key) →
  message_of params prefix = Raised (KeyError key).
Proof.
  intros Hsec. unfold _get_edit_create_message, required_keys, getitem.
  rewrite Hsec. cbn [mbind outcome_bind list_find].
  destruct (params !! "connection") as [connection|];
    [rewrite decide_False by done|rewrite decide_True by done; by intros [= _ <-]].
  destruct (params !! "transport") as [transport|];
    [rewrite decide_False by done|rewrite decide_True by done; by intros [= _ <-]].
  destruct (params !! "cluster_id") as [cluster_id|];
    [rewrite decide_False by done|rewrite decide_True by done; by intros [= _ <-]].
  destruct (params !! (prefix +:+ "name")) as [name|] eqn:Hname;
    [rewrite decide_False by done|rewrite decide_True by done; by intros [= _ <-]].
  destruct (params !! (prefix +:+ "url_path")) as [url_path|] eqn:Hpath;
    [rewrite decide_False by done|rewrite decide_True by done; by intros [= _ <-]].
  done.
Qed.

(** X13.  When the security helper returns, [_get_edit_create_message]
    raises KeyError for the first of connection, transport, cluster_id,
    name and url_path (the last two under the prefix) that the form data
    lacks; when none is missing it returns a message with the same 29
    keys whatever the form holds, in which is_internal is False and
    security_id is what the helper returned. *)
Theorem edit_create_message_required (params : gmap string string)
    (prefix : string) (security_id : pyval) :
  get_security_id_from_select params prefix = Return security_id →
  match list_find (λ key, params !! key = None) (required_keys prefix) with
  | Some (_, key) => message_of params prefix = Raised (KeyError key)
  | None =>
      ∃ message,
        message_of params prefix = Return message ∧
        dom message = list_to_set message_keys ∧
        message !! "is_internal" = Some (PBool false) ∧
        message !! "security_id" = Some security_id
  end.
Proof.
  intros Hsec. unfold _get_edit_create_message, required_keys, getitem.
  rewrite Hsec. cbn [mbind outcome_bind list_find].
  destruct (params !! "connection") as [connection|];
    [rewrite decide_False by done|by rewrite decide_True by done].
  destruct (params !! "transport") as [transport|];
    [rewrite decide_False by done|by rewrite decide_True by done].
  destruct (params !! "cluster_id") as [cluster_id|];
    [rewrite decide_False by done|by rewrite decide_True by done].
  destruct (params !! (prefix +:+ "name")) as [name|] eqn:Hname;
    [rewrite decide_False by done|by rewrite decide_True by done].
  destruct (params !! (prefix +:+ "url_path")) as [url_path|] eqn:Hpath;
    [rewrite decide_False by done|by rewrite decide_True by done].
  cbn [fmap option_fmap option_map]. eexists. split; [reflexivity|]. split_and!.
  - rewrite dom_list_to_map_L. reflexivity.
  - reflexivity.
  - reflexivity.
Qed.

(** A message was built from a form that has the keys subscripted. *)
Lemma message_of_Return (params : gmap string string) (prefix : string) message :
  message_of params prefix = Return message →
  Forall (λ key, is_Some (params !! key)) (required_keys prefix).
Proof.
  unfold _get_edit_create_message, required_keys, getitem.
  destruct (get_security_id_from_select params prefix); [|done].
  cbn [mbind outcome_bind].
  destruct (params !! "connection") eqn:H1; [|done].
  destruct (params !! "transport") eqn:H2; [|done].
  destruct (params !! "cluster_id") eqn:H3; [|done].
  destruct (params !! (prefix +:+ "name")) eqn:H4; [|done].
  destruct (params !! (prefix +:+ "url_path")) eqn:H5; [|done].
  intros _.
  repeat (apply Forall_cons; split; [eexists; eassumption|]).
  apply Forall_nil_2.
Qed.
End MessageProperties.

Section MessageWitness.
Import HttpSoap.

Lemma edit_create_message_required_witness :
  ∃ message,
    _get_edit_create_message sample_common sample_security channel_form ""
    = Return message ∧
    dom message = list_to_set message_keys ∧
    message !! "is_internal" = Some (PBool false) ∧
    message !! "security_id" = Some (PStr "ZATO_NONE").
Proof.
  exact (edit_create_message_required sample_common sample_security
           channel_form "" (PStr "ZATO_NONE") eq_refl).
Defined.
End MessageWitness.

Section MessageFrame.
Import HttpSoap.
Variable common : Common.
Variable get_security_id_from_select : gmap string string → string → outcome pyval.

(** X14.  [_get_edit_create_message] reads the form data only at
    connection, transport, id and cluster_id and at its other 23 field
    names under the prefix: two forms that agree there, and on which the
    security helper agrees, give the same result, so that with the prefix
    edit- a field such as name or host without the prefix is ignored. *)
Theorem edit_create_message_reads_prefixed (params params' : gmap string string)
    (prefix : string) :
  Forall (λ key, params !! key = params' !! key) (read_keys prefix) →
  get_security_id_from_select params prefix
  = get_security_id_from_select params' prefix →
  _get_edit_create_message common get_security_id_from_select params prefix
  = _get_edit_create_message common get_security_id_from_select params' prefix.
Proof.
  intros Hkeys Hsec. unfold read_keys in Hkeys.
  cbn [app fmap list_fmap] in Hkeys.
  repeat (apply Forall_cons in Hkeys as [? Hkeys]).
  unfold _get_edit_create_message, getitem, get, get_default.
  rewrite Hsec.
  repeat match goal with
         | Hk : params !! _ = params' !! _ |- _ => rewrite Hk; clear Hk
         end.
  reflexivity.
Qed.

End MessageFrame.

Section MessageFrameWitness.
Import HttpSoap.

Lemma edit_create_message_reads_prefixed_witness :
  _get_edit_create_message sample_common sample_security channel_edit_form "edit-"
  = _get_edit_create_message sample_common sample_security
      (<["name" := "ignored"]> channel_edit_form) "edit-".
Proof.
  apply (edit_create_message_reads_prefixed sample_common sample_security
           channel_edit_form (<["name" := "ignored"]> channel_edit_form) "edit-").
  - unfold read_keys. cbn [app fmap list_fmap].
    repeat (apply Forall_cons; split; [vm_compute; reflexivity|]).
    apply Forall_nil_2.
  - vm_compute. reflexivity.
Defined.
End MessageFrameWitness.

Section ViewProperties.
Import HttpSoap.
Variable common : Common.
Variable get_security_id_from_select : gmap string string → string → outcome pyval.
Variable server : string → gmap string pyval → outcome Response.
Variable dumps : gmap string pyval → string.
Variable format_exc : exception → string.

Abbreviation respond := (_edit_create_response common server dumps).
Abbreviation create_view :=
  (create common get_security_id_from_select server dumps format_exc).
Abbreviation edit_view :=
  (edit common get_security_id_from_select server dumps format_exc).

(** [_edit_create_response], step by step. *)
Lemma respond_cases req id verb transport connection name log :
  respond req id verb transport connection name log =
  match TRANSPORT !! transport, CONNECTION !! connection with
  | None, _ => (Raised (KeyError transport), log)
  | Some _, None => (Raised (KeyError connection), log)
  | Some transport_label, Some connection_label =>
      let log' := (log ++ [("zato.http-soap.get", get_payload req id)])%list in
      match server "zato.http-soap.get" (get_payload req id) with
      | Raised e => (Raised e, log')
      | Return response =>
          match cache_of common response with
          | Raised e => (Raised e, log')
          | Return cache =>
              (Return
                 (HttpResponse
                    (dumps
                       (<["cache_name" := cache.2]>
                          (<["cache_type" := cache.1]>
                             {[ "id" := id;
                                "transport" := PStr transport;
                                "message" :=
                                  PStr (success_message verb transport_label
                                          connection_label name) ]})))
                    (Some "application/javascript")), log')
          end
      end
  end.
Proof.
  unfold _edit_create_response, getitem, lift, invoke, get_payload.
  unfold mbind, web_bind, mret, web_ret.
  destruct (TRANSPORT !! transport); [|done].
  destruct (CONNECTION !! connection); [|done].
  destruct (server _ _); [|done].
  destruct (cache_of common _); done.
Qed.
End ViewProperties.

Section ViewAnswers.
Import HttpSoap.
Variable common : Common.
Variable get_security_id_from_select : gmap string string → string → outcome pyval.
Variable server : string → gmap string pyval → outcome Response.
Variable dumps : gmap string pyval → string.
Variable format_exc : exception → string.

Abbreviation message_for :=
  (_get_edit_create_message common get_security_id_from_select).
Abbreviation respond_with := (_edit_create_response common server dumps).
Abbreviation create_view :=
  (create common get_security_id_from_select server dumps format_exc).
Abbreviation edit_view :=
  (edit common get_security_id_from_select server dumps format_exc).

(** X15.  [_edit_create_response] looks the transport and the connection
    up in TRANSPORT and CONNECTION before it invokes anything: for a
    transport other than plain_http and soap, or a connection other than
    channel and outgoing, it raises KeyError with no invocation made;
    otherwise it makes exactly one invocation, of zato.http-soap.get with
    the cluster id and the id of the object. *)
Theorem edit_create_response_invocations (req : Request) (id : pyval)
    (verb transport connection name : string) (log : list Call) :
  match TRANSPORT !! transport, CONNECTION !! connection with
  | None, _ =>
      respond_with req id verb transport connection name log
      = (Raised (KeyError transport), log)
  | Some _, None =>
      respond_with req id verb transport connection name log
      = (Raised (KeyError connection), log)
  | Some _, Some _ =>
      (respond_with req id verb transport connection name log).2
      = (log ++ [("zato.http-soap.get",
                  {[ "cluster_id" := cluster_id req; "id" := id ]})])%list
  end.
Proof.
  rewrite respond_cases.
  destruct (TRANSPORT !! transport); [|done].
  destruct (CONNECTION !! connection); [|done].
  cbn zeta. destruct (server _ _); [|done].
  destruct (cache_of common _); done.
Qed.

(** X16.  When the form data lacks one of the fields that create needs,
    create answers with a server error that names the first such field,
    and no service has been invoked. *)
Theorem create_missing_field (req : Request) (log : list Call)
    (security_id : pyval) (i : nat) (key : string) :
  get_security_id_from_select (POST req) "" = Return security_id →
  list_find (λ key, POST req !! key = None) (required_keys "") = Some (i, key) →
  create_view req log
  = (HttpResponseServerError
       ("Could not create the object, e:[" +:+ format_exc (KeyError key) +:+ "]"),
     log).
Proof.
  intros Hsec Hfind.
  pose proof (message_of_missing common get_security_id_from_select
                (POST req) "" security_id i key Hsec Hfind) as Hmsg.
  unfold create, lift, mbind, web_bind. by rewrite Hmsg.
Qed.

(** X17.  When the service zato.http-soap.create returns the new object
    but the transport of the form is neither plain_http nor soap, create
    answers with a server error although the object has been created:
    zato.http-soap.create is the one service invoked. *)
Theorem create_fails_after_creating (req : Request) (log : list Call)
    (message : gmap string pyval) (response : Response) (id : pyval)
    (transport : string) :
  message_for (POST req) "" = Return message →
  server "zato.http-soap.create" message = Return response →
  has_data response = true →
  data response !! "id" = Some id →
  POST req !! "transport" = Some transport →
  TRANSPORT !! transport = None →
  create_view req log
  = (HttpResponseServerError
       ("Could not create the object, e:["
        +:+ format_exc (KeyError transport) +:+ "]"),
     (log ++ [("zato.http-soap.create", message)])%list).
Proof.
  intros Hmsg Hcreate Hdata Hid Htransport Hlabel.
  pose proof (message_of_Return _ _ _ _ _ Hmsg) as Hreq.
  unfold required_keys in Hreq.
  apply Forall_cons in Hreq as [[connection Hconnection] Hreq].
  apply Forall_cons in Hreq as [_ Hreq].
  apply Forall_cons in Hreq as [_ Hreq].
  apply Forall_cons in Hreq as [[name Hname] _].
  change ("" +:+ "name") with "name" in Hname.
  unfold create, lift, invoke, getattr, getitem, mbind, web_bind.
  rewrite Hmsg, Hcreate, Hdata, Hid, Htransport, Hconnection, Hname.
  rewrite respond_cases, Hlabel. done.
Qed.

(** X18.  When the service zato.http-soap.edit returns the object, the
    transport and the connection of the form have labels, and the object
    read back has no cache, edit answers with the JSON of the id, the
    transport, no cache, and the message 'Successfully updated the', the
    two labels and the name given under edit-name; it has invoked
    zato.http-soap.edit and then zato.http-soap.get, and nothing else. *)
Theorem edit_answers_updated (req : Request) (log : list Call)
    (message : gmap string pyval) (response got : Response)
    (id cache_id : pyval)
    (transport connection name transport_label connection_label : string) :
  message_for (POST req) "edit-" = Return message →
  server "zato.http-soap.edit" message = Return response →
  has_data response = true →
  data response !! "id" = Some id →
  POST req !! "transport" = Some transport →
  POST req !! "connection" = Some connection →
  POST req !! "edit-name" = Some name →
  TRANSPORT !! transport = Some transport_label →
  CONNECTION !! connection = Some connection_label →
  server "zato.http-soap.get" (get_payload req id) = Return got →
  data got !! "cache_id" = Some cache_id →
  truth cache_id = false →
  edit_view req log
  = (HttpResponse
       (dumps
          (<["cache_name" := PNone]>
             (<["cache_type" := PNone]>
                {[ "id" := id;
                   "transport" := PStr transport;
                   "message" :=
                     PStr (success_message "updated" transport_label
                             connection_label name) ]})))
       (Some "application/javascript"),
     (log ++ [("zato.http-soap.edit", message);
              ("zato.http-soap.get", get_payload req id)])%list).
Proof.
  intros Hmsg Hedit Hdata Hid Htransport Hconnection Hname Htl Hcl Hget
    Hcache Htruth.
  unfold edit, lift, invoke, getattr, getitem, mbind, web_bind.
  rewrite Hmsg, Hedit, Hdata, Hid, Htransport, Hconnection, Hname.
  rewrite respond_cases, Htl, Hcl. cbn zeta. rewrite Hget.
  unfold cache_of, getattr. rewrite Hcache. cbn [mbind outcome_bind].
  rewrite Htruth. cbn [fst snd]. by rewrite <-app_assoc.
Qed.

(** X19.  Whatever the form holds and the services do, create invokes at
    most zato.http-soap.create and then zato.http-soap.get, and nothing
    before, between or after them; it answers with a response of type
    application/javascript only when both have been invoked, and in every
    other case with a server error whose text is 'Could not create the
    object, e:[', the formatted exception and ']'. *)
Theorem create_invocations_and_answers (req : Request) (log : list Call) :
  ∃ calls,
    (create_view req log).2 = (log ++ calls)%list ∧
    calls.*1 `prefix_of` ["zato.http-soap.create"; "zato.http-soap.get"] ∧
    match (create_view req log).1 with
    | HttpResponse _ content_type =>
        content_type = Some "application/javascript" ∧
        calls.*1 = ["zato.http-soap.create"; "zato.http-soap.get"]
    | HttpResponseServerError content =>
        ∃ e, content
             = "Could not create the object, e:[" +:+ format_exc e +:+ "]"
    | HttpResponseRedirect _ => False
    end.
Proof.
  unfold create, lift, invoke, getattr, getitem, mbind, web_bind.
  destruct (message_for (POST req) "") as [message|e0];
    [|exists []; rewrite app_nil_r; split_and!;
      [done|apply prefix_nil|by eexists]].
  destruct (server "zato.http-soap.create" message) as [response|e1];
    [|eexists [_]; split_and!; [done|by eexists|by eexists]].
  destruct (has_data response);
    [|eexists [_]; split_and!; [done|by eexists|by eexists]].
  destruct (data response !! "id") as [id|];
    [|eexists [_]; split_and!; [done|by eexists|by eexists]].
  destruct (POST req !! "transport") as [transport|];
    [|eexists [_]; split_and!; [done|by eexists|by eexists]].
  destruct (POST req !! "connection") as [connection|];
    [|eexists [_]; split_and!; [done|by eexists|by eexists]].
  destruct (POST req !! "name") as [name|];
    [|eexists [_]; split_and!; [done|by eexists|by eexists]].
  rewrite respond_cases.
  destruct (TRANSPORT !! transport);
    [|eexists [_]; split_and!; [done|by eexists|by eexists]].
  destruct (CONNECTION !! connection);
    [|eexists [_]; split_and!; [done|by eexists|by eexists]].
  cbn zeta.
  destruct (server "zato.http-soap.get" _);
    [|eexists [_; _]; split_and!; [by rewrite <-app_assoc|done|by eexists]].
  destruct (cache_of common _);
    eexists [_; _]; (split_and!; [by rewrite <-app_assoc|done|]);
    [done|by eexists].
Qed.

End ViewAnswers.

Section ViewWitnesses.
Import HttpSoap.

Lemma create_missing_field_witness :
  create sample_common sample_security sample_server sample_dumps
    sample_format_exc nameless_request []
  = (HttpResponseServerError "Could not create the object, e:[KeyError: name]",
     []).
Proof.
  apply (create_missing_field sample_common sample_security sample_server
           sample_dumps sample_format_exc nameless_request []
           (PStr "ZATO_NONE") 3%nat "name").
  - vm_compute. reflexivity.
  - vm_compute. reflexivity.
Defined.

Lemma create_fails_after_creating_witness :
  create sample_common sample_security sample_server sample_dumps
    sample_format_exc amqp_request []
  = (HttpResponseServerError "Could not create the object, e:[KeyError: amqp]",
     [("zato.http-soap.create", amqp_message)]).
Proof.
  apply (create_fails_after_creating sample_common sample_security
           sample_server sample_dumps sample_format_exc amqp_request []
           amqp_message created_response (PInt 12) "amqp").
  - reflexivity.
  - reflexivity.
  - reflexivity.
  - reflexivity.
  - vm_compute. reflexivity.
  - vm_compute. reflexivity.
Defined.

Lemma edit_answers_updated_witness :
  edit sample_common sample_security sample_server sample_dumps
    sample_format_exc channel_edit_request []
  = (HttpResponse
       (sample_dumps
          (<["cache_name" := PNone]>
             (<["cache_type" := PNone]>
                {[ "id" := PInt 12;
                   "transport" := PStr "plain_http";
                   "message" :=
                     PStr (success_message "updated" "REST" "channel"
                             "crm.customer.v2") ]})))
       (Some "application/javascript"),
     [("zato.http-soap.edit", channel_edit_message);
      ("zato.http-soap.get", get_payload channel_edit_request (PInt 12))]).
Proof.
  apply (edit_answers_updated sample_common sample_security sample_server
           sample_dumps sample_format_exc channel_edit_request []
           channel_edit_message created_response uncached_response
           (PInt 12) PNone "plain_http" "channel" "crm.customer.v2"
           "REST" "channel").
  - reflexivity.
  - reflexivity.
  - reflexivity.
  - reflexivity.
  - vm_compute. reflexivity.
  - vm_compute. reflexivity.
  - vm_compute. reflexivity.
  - vm_compute. reflexivity.
  - vm_compute. reflexivity.
  - vm_compute. reflexivity.
  - reflexivity.
  - reflexivity.
Defined.

End ViewWitnesses.

(* --------------------------------------------------------------------- *)
(* zato-web-admin: the index view                                        *)
(* --------------------------------------------------------------------- *)

Section IndexLoops.
Import HttpSoap HttpSoapIndex.
Variable common : Common.
Variable constants : Constants.

Lemma contains_empty name : contains "" name = true.
Proof. unfold contains. by destruct name. Qed.

Lemma getattrs_length item names vs :
  getattrs item names = Return vs → length vs = length names.
Proof.
  revert vs. induction names as [|name names IH]; intros vs; simpl.
  - by intros [= <-].
  - destruct (getattr item name); [|done]. simpl.
    destruct (getattrs item names); [|done]. simpl.
    intros [= <-]. simpl. f_equal. by apply IH.
Qed.

(** What [shown] returns tells whether the name contains the query, and
    the object it builds carries the connection and the transport of the
    request. *)
Lemma shown_Return connection transport query item object :
  shown common constants connection transport query item = Return object →
  match object with
  | None => hit query item = false
  | Some o =>
      hit query item = true ∧
      args o !! 4%nat = Some connection ∧ args o !! 5%nat = Some transport
  end.
Proof.
  unfold shown, hit.
  destruct (getattr item "name") as [v|] eqn:Hname; cbn [mbind outcome_bind];
    [|done].
  unfold getattr in Hname. destruct (item !! "name") as [v'|]; [|done].
  injection Hname as ->.
  destruct v as [| | |name]; cbn [mbind outcome_bind]; try done.
  destruct (contains query name); cbn [negb]; [|by intros [= <-]].
  destruct (security_name_of constants item); [|done].
  destruct (security_id_of constants item); [|done].
  destruct (cache_name_of common item); [|done].
  cbn [mbind outcome_bind].
  destruct (getattrs item ["id"; "name"; "is_active"; "is_internal"])
    as [first|] eqn:Hfirst; [|done].
  apply getattrs_length in Hfirst.
  destruct first as [|f0 [|f1 [|f2 [|f3 [|]]]]]; try done.
  cbn [mbind outcome_bind].
  destruct (getattrs item _); [|done]. cbn [mbind outcome_bind].
  destruct (getattr item "service_id"); [|done]. cbn [mbind outcome_bind].
  destruct (getattr item "service_name"); [|done]. cbn [mbind outcome_bind].
  destruct (getattr item "has_rbac"); [|done]. cbn [mbind outcome_bind].
  destruct (getattr item "content_type"); [|done]. cbn [mbind outcome_bind].
  destruct (getattr item "cache_id"); [|done]. cbn [mbind outcome_bind].
  destruct (getattr item "cache_type"); [|done]. cbn [mbind outcome_bind].
  destruct (getattr item "cache_expiry"); [|done]. cbn [mbind outcome_bind].
  destruct (getattr item "content_encoding"); [|done]. cbn [mbind outcome_bind].
  by intros [= <-].
Qed.

Lemma skipped_not_outgoing connection transport def_item :
  eq_str connection "outgoing" = false →
  skipped constants connection transport def_item = Return false.
Proof. intros Hc. unfold skipped. by rewrite Hc. Qed.
End IndexLoops.

Section IndexProperties.
Import HttpSoap HttpSoapIndex.
Variable common : Common.
Variable constants : Constants.


(** X21.  When the loop over the objects of the list returns, index shows
    exactly the objects whose name contains the query, in the order of
    the list, each with the connection and the transport of the request
    in the fifth and sixth place of its constructor call; with an empty
    query it shows every object of the list. *)
Theorem index_items_shown (connection transport : pyval) (query : string)
    (data : list Bunch) (items : list HTTPSOAP) :
  items_loop common constants connection transport query data = Return items →
  Forall2 (λ item object,
             shown common constants connection transport query item
             = Return (Some object))
          (List.filter (hit query) data) items ∧
  Forall (λ object, args object !! 4%nat = Some connection ∧
                    args object !! 5%nat = Some transport) items ∧
  (query = "" → length items = length data).
Proof.
  revert items. induction data as [|item rest IH]; intros items; simpl.
  - intros [= <-]. split_and!; [constructor|constructor|done].
  - destruct (shown common constants connection transport query item)
      as [object|] eqn:Hshown; [|done].
    simpl.
    destruct (items_loop common constants connection transport query rest)
      as [objects|]; [|done].
    simpl. intros [= <-].
    destruct (IH objects eq_refl) as (Hrest & Hargs & Hlen).
    pose proof (shown_Return _ _ _ _ _ _ _ Hshown) as Hobject.
    destruct object as [o|]; simpl.
    + destruct Hobject as (Hhit & H4 & H5). rewrite Hhit.
      split_and!; [by constructor|by constructor|].
      intros Hq. simpl. f_equal. by apply Hlen.
    + rewrite Hobject. split_and!; [done|done|].
      intros ->. unfold hit in Hobject.
      unfold shown in Hshown.
      destruct (getattr item "name") as [v|] eqn:Hname;
        cbn [mbind outcome_bind] in Hshown; [|done].
      unfold getattr in Hname. destruct (item !! "name") as [v'|]; [|done].
      injection Hname as ->.
      destruct v as [| | |name]; cbn [mbind outcome_bind] in Hshown; try done.
      by rewrite contains_empty in Hobject.
Qed.

End IndexProperties.

Section IndexCalls.
Import HttpSoap HttpSoapIndex.
Variable common : Common.
Variable constants : Constants.
Variable Tls : Type.
Variable Meta : Type.
Variable server : string → gmap string pyval → outcome (list Bunch).
Variable get_tls_ca_cert_list : Bunch → outcome Tls * list Call.
Variable parse_response_data : list Bunch → outcome (list Bunch * Meta).
Variable sorted_by_name : list Bunch → outcome (list Bunch).

Abbreviation listing_of :=
  (listing common constants Tls Meta server get_tls_ca_cert_list
     parse_response_data sorted_by_name).
Abbreviation index_view :=
  (index common constants Tls Meta server get_tls_ca_cert_list
     parse_response_data sorted_by_name).
Abbreviation calls_of := (all_calls common Tls get_tls_ca_cert_list).

Local Ltac stopped :=
  eexists;
  split; [cbn [snd]; rewrite <-?app_assoc; reflexivity|];
  split; [done|];
  split; [eexists; rewrite <-?app_assoc; simpl; reflexivity|done].

(** The invocations of lines 142-222. *)
Lemma listing_calls (req : Request) (connection transport : pyval)
    (query : string) (log : list Call) :
  ∃ calls,
    (listing_of req connection transport query log).2 = (log ++ calls)%list ∧
    (truth (zato_cluster_id req) = false → calls = []) ∧
    match zato_cluster req !! "id" with
    | Some cluster_id =>
        calls `prefix_of` calls_of req connection transport cluster_id ∧
        (∀ found,
           (listing_of req connection transport query log).1 = Return found →
           truth (zato_cluster_id req) = true →
           calls = calls_of req connection transport cluster_id)
    | None => truth (zato_cluster_id req) = true → calls = []
    end.
Proof.
  unfold listing, all_calls.
  destruct (truth (zato_cluster_id req)) eqn:Hcluster.
  - unfold caches_of, lift, invoke, getattr, mbind, web_bind, mret, web_ret.
    destruct (zato_cluster req !! "id") as [cluster_id|].
    + destruct (server "zato.security.get-list" _); [|stopped].
      destruct (security_loop constants connection transport _); [|stopped].
      destruct (get_tls_ca_cert_list (zato_cluster req)) as [[tls|] tls_calls];
        [|stopped].
      cbn [snd].
      destruct (server ("zato.cache." +:+ CACHE_TYPE_BUILTIN common +:+ _) _);
        [|stopped].
      destruct (sorted_by_name _); [|stopped].
      destruct (cache_entries common _ _); [|stopped].
      destruct (server ("zato.cache." +:+ CACHE_TYPE_MEMCACHED common +:+ _) _);
        [|stopped].
      destruct (sorted_by_name _); [|stopped].
      destruct (cache_entries common _ _); [|stopped].
      destruct (server "zato.http-soap.get-list" _); [|stopped].
      destruct (parse_response_data _); [|stopped].
      destruct (items_loop common constants connection transport query _);
        [|stopped].
      eexists.
      split; [cbn [snd]; rewrite <-?app_assoc; reflexivity|].
      split; [done|].
      split; [eexists; by rewrite app_nil_r|done].
    + exists []. rewrite app_nil_r. done.
  - exists []. unfold mret, web_ret. simpl. rewrite app_nil_r.
    split; [done|]. split; [done|].
    destruct (zato_cluster req !! "id"); [|done].
    split; [apply prefix_nil|done].
Qed.

End IndexCalls.

Section IndexWitnesses.
Import HttpSoap HttpSoapIndex.

Lemma index_items_shown_witness :
  Forall2 (λ item object,
             shown sample_common sample_constants (PStr "channel")
               (PStr "plain_http") "crm" item
             = Return (Some object))
          (List.filter (hit "crm") sample_data) sample_items ∧
  Forall (λ object, args object !! 4%nat = Some (PStr "channel") ∧
                    args object !! 5%nat = Some (PStr "plain_http"))
         sample_items ∧
  ("crm" = "" → length sample_items = length sample_data).
Proof.
  apply (index_items_shown sample_common sample_constants (PStr "channel")
           (PStr "plain_http") "crm" sample_data sample_items).
  reflexivity.
Defined.

End IndexWitnesses.
